(** * ntc-tesuto: selection parsing, substring matching and batch dispatch

    A shallow embedding of [ntc_tesuto.py].  Python values are modelled as
    follows.

    - [str] is [string]; every character is an ASCII character (the 8-bit
      codes above 127 are carried along unchanged and are never whitespace,
      digits or letters).
    - [int] is [Z]; the bound recent versions of Python put on the number
      of digits [int()] reads is not modelled.
    - [input()] reads the next line of a finite standard input; at its end
      it raises [EOFError].
    - [print], the prompt of [input] and every call of the remote API are
      recorded, in order, in a trace of events.
    - the remote service is an arbitrary deterministic state machine.
    - [datetime.fromtimestamp] is the conversion of the host: for each
      timestamp it gives a time or raises ([ValueError], [OSError] and
      [OverflowError] are the exceptions Python documents for it). *)

From Stdlib Require Import ZArith List Bool Lia.
From Stdlib Require Import Strings.Ascii Strings.String.
From Stdlib Require Import Numbers.DecimalString Numbers.DecimalZ Numbers.DecimalPos.
From Stdlib Require Import Sorting.Sorted Sorting.Permutation.
Import ListNotations.

Open Scope string_scope.
Open Scope Z_scope.

(** ** Python strings *)

Module PyStr.

Definition code (c : ascii) : Z := Z.of_nat (nat_of_ascii c).

(** [Py_ISSPACE]: the whitespace [int()] skips in an ASCII string. *)
Definition is_c_space (c : ascii) : bool :=
  let n := code c in ((9 <=? n) && (n <=? 13)) || (n =? 32).

(** [str.isspace] on the ASCII range: [strip()] also removes the four
    separators 28..31. *)
Definition is_space (c : ascii) : bool :=
  let n := code c in
  ((9 <=? n) && (n <=? 13)) || ((28 <=? n) && (n <=? 32)).

Definition digit_of (c : ascii) : option Z :=
  let n := code c in
  if (48 <=? n) && (n <=? 57) then Some (n - 48) else None.

Definition lower_char (c : ascii) : ascii :=
  let n := code c in
  if (65 <=? n) && (n <=? 90) then ascii_of_nat (Z.to_nat (n + 32)) else c.

(** [s.lower()] *)
Fixpoint lower (s : string) : string :=
  match s with
  | EmptyString => EmptyString
  | String c r => String (lower_char c) (lower r)
  end.

Fixpoint lstrip_by (sp : ascii -> bool) (s : string) : string :=
  match s with
  | EmptyString => EmptyString
  | String c r => if sp c then lstrip_by sp r else s
  end.

(** Removes the trailing characters satisfying [sp]. *)
Fixpoint rstrip_by (sp : ascii -> bool) (s : string) : string :=
  match s with
  | EmptyString => EmptyString
  | String c r =>
      match rstrip_by sp r with
      | EmptyString => if sp c then EmptyString else String c EmptyString
      | r' => String c r'
      end
  end.

(** [s.strip()] *)
Definition strip (s : string) : string := rstrip_by is_space (lstrip_by is_space s).

(** [sub in s] *)
Fixpoint contains (sub s : string) : bool :=
  prefix sub s ||
  match s with
  | EmptyString => false
  | String _ r => contains sub r
  end.

(** [s.split(sep)] for a one-character separator: empty pieces are kept
    and the result is never empty. *)
Fixpoint split (sep : ascii) (s : string) : list string :=
  match s with
  | EmptyString => [EmptyString]
  | String c r =>
      if Ascii.eqb c sep then EmptyString :: split sep r
      else match split sep r with
           | h :: t => String c h :: t
           | [] => [String c EmptyString]
           end
  end.

(** The digits of a decimal literal after its sign.  [prev] tells what
    the previous character was: a literal does not start or end with an
    underscore and has no two underscores in a row.  The scan stops at the
    first character that is neither a digit nor an underscore and returns
    the rest. *)
Inductive prev_char := PStart | PDigit | PUnderscore.

Fixpoint scan_digits (s : string) (acc : Z) (prev : prev_char)
  : option (Z * string) :=
  let stop :=
    match prev with
    | PDigit => Some (acc, s)
    | PStart | PUnderscore => None
    end in
  match s with
  | EmptyString => stop
  | String c r =>
      match digit_of c with
      | Some d => scan_digits r (10 * acc + d) PDigit
      | None =>
          if Ascii.eqb c "_" then
            match prev with
            | PDigit => scan_digits r acc PUnderscore
            | PStart | PUnderscore => None
            end
          else stop
      end
  end.

(** [int(s)] in base 10; [None] stands for [ValueError]. *)
Definition int (s : string) : option Z :=
  let s1 := lstrip_by is_c_space s in
  let '(sign, s2) :=
    match s1 with
    | String "+" r => (1, r)
    | String "-" r => (-1, r)
    | _ => (1, s1)
    end in
  match scan_digits s2 0 PStart with
  | Some (n, rest) =>
      match lstrip_by is_c_space rest with
      | EmptyString => Some (sign * n)
      | String _ _ => None
      end
  | None => None
  end.

(** [str(n)] for an integer. *)
Definition of_int (n : Z) : string := NilZero.string_of_int (Z.to_int n).

End PyStr.

(** ** Exceptions and results *)

(** The argument an [InvalidChoice] is raised with: the offending segment
    or the offending integer. *)
Inductive choice_arg :=
| ArgStr (segment : string)
| ArgInt (n : Z).

(** The exceptions of the program.  [OutOfFuel] is not one of Python's: it
    marks a run of a [while True] loop cut at the bound the model gives
    it. *)
Inductive exn :=
| InvalidChoice (arg : choice_arg)
| ValueError
| EOFError
| IndexError
| OSError
| OverflowError
| KeyboardInterrupt
| Exception_ (msg : string)
| OutOfFuel.

Inductive result (A : Type) :=
| Ok (a : A)
| Raise (e : exn).
Arguments Ok {A} a.
Arguments Raise {A} e.

(** ** Data model *)

Module Emulation.
Record t := {
  id : Z;
  name : string;
  region : string;
  status : string;
  end_at : option Z;
  ending_time : option Z
}.
End Emulation.

Module Device.
Record t := {
  id : Z;
  emulation_id : Z;
  name : string;
  vendor_name : string;
  model_name : string;
  is_enabled : bool
}.
End Device.

(** The body of an emulation update: [{"action": status}], with ["end_at"]
    when a timer was asked for. *)
Record emulation_data := {
  action : string;
  end_at : option Z
}.

Record response (A : Type) := {
  status_code : Z;
  data : A
}.
Arguments status_code {A} r.
Arguments data {A} r.

(** A cell of a printed table. *)
Inductive value :=
| VNone
| VInt (n : Z)
| VBool (b : bool)
| VStr (s : string)
| VTime (time : Z).

(** What the program does to the outside, in order. *)
Inductive event :=
| Print (s : string)
| Prompt (s : string)
| Table (titles : list string) (rows : list (list value))
| ApiEmulationList
| ApiEmulationPut (id : Z) (data : emulation_data)
| ApiDeviceList (emulation_id : Z)
| ApiDevicePut (id emulation_id : Z) (is_enabled : bool).

Definition nl : string := String (ascii_of_nat 10) EmptyString.

(** [str(e)] of an [InvalidChoice]. *)
Definition show_arg (a : choice_arg) : string :=
  match a with
  | ArgStr s => s
  | ArgInt n => PyStr.of_int n
  end.

(** [n in range(start, stop)] *)
Definition in_range (start stop n : Z) : bool := (start <=? n) && (n <? stop).

(** [list(range(start, stop))] *)
Definition range (start stop : Z) : list Z :=
  map (fun i => start + Z.of_nat i) (seq 0 (Z.to_nat (stop - start))).

(** [l[i]], with Python's negative indices. *)
Definition getitem {A} (l : list A) (i : Z) : result A :=
  let n := Z.of_nat (List.length l) in
  let j := if i <? 0 then i + n else i in
  if (0 <=? j) && (j <? n) then
    match nth_error l (Z.to_nat j) with
    | Some x => Ok x
    | None => Raise IndexError
    end
  else Raise IndexError.

(** [[l[n - 1] for n in selections]] *)
Fixpoint pick {A} (l : list A) (selections : list Z) : result (list A) :=
  match selections with
  | [] => Ok []
  | n :: rest =>
      match getitem l (n - 1) with
      | Ok x =>
          match pick l rest with
          | Ok xs => Ok (x :: xs)
          | Raise e => Raise e
          end
      | Raise e => Raise e
      end
  end.

(** ** Numeric selection parser (the pure part of [get_user_selections]) *)

(** One turn of the loop over the segments: the integers the segment adds
    to [selections].  Unpacking [a, b = map(int, ...)] raises [ValueError]
    when a piece is not an integer and also when there are not exactly two
    pieces; every [ValueError] becomes [InvalidChoice(segment)]. *)
Definition parse_segment (segment : string) : result (list Z) :=
  if PyStr.contains "-" segment then
    match map PyStr.int (PyStr.split "-" segment) with
    | [Some a; Some b] => Ok (range a (b + 1))
    | _ => Raise (InvalidChoice (ArgStr segment))
    end
  else
    match PyStr.int segment with
    | Some n => Ok [n]
    | None => Raise (InvalidChoice (ArgStr segment))
    end.

(** [for segment in raw_input.split(","): ...], appending to [selections]. *)
Fixpoint parse_segments (segments : list string) (selections : list Z)
  : result (list Z) :=
  match segments with
  | [] => Ok selections
  | segment :: rest =>
      match parse_segment segment with
      | Ok ns => parse_segments rest (selections ++ ns)%list
      | Raise e => Raise e
      end
  end.

(** [for n in selections: if n not in choices: raise InvalidChoice(n)] *)
Fixpoint validate (choices : Z -> bool) (selections : list Z) : result unit :=
  match selections with
  | [] => Ok tt
  | n :: rest =>
      if choices n then validate choices rest
      else Raise (InvalidChoice (ArgInt n))
  end.

(** The body of the [try] for a line that is not blank. *)
Definition read_selections (choices : Z -> bool) (raw_input : string)
  : result (list Z) :=
  match parse_segments (PyStr.split "," raw_input) [] with
  | Ok selections =>
      match validate choices selections with
      | Ok _ => Ok selections
      | Raise e => Raise e
      end
  | Raise e => Raise e
  end.

(** ** Substring matcher (the pure part of [manage_devices_across_emulations]) *)

(** [input(...).lower().split(",")] *)
Definition user_devices_of (line : string) : list string :=
  PyStr.split "," (PyStr.lower line).

(** The two nested loops that fill [devices_to_toggle]. *)
Definition devices_to_toggle (user_devices : list string) (devices : list Device.t)
  : list Device.t :=
  fold_left
    (fun acc device =>
       fold_left
         (fun acc sub_string =>
            if PyStr.contains (PyStr.strip sub_string) (Device.name device)
            then (acc ++ [device])%list else acc)
         user_devices acc)
    devices [].

(** ** Sorting by name *)

(** [data.sort(key=lambda x: x.name)]: the sort is stable and compares the
    keys with [<] only; insertion from the right gives the same list. *)
Fixpoint insert_by_name (x : Emulation.t) (l : list Emulation.t) : list Emulation.t :=
  match l with
  | [] => [x]
  | y :: r =>
      if String.ltb (Emulation.name y) (Emulation.name x)
      then y :: insert_by_name x r
      else x :: l
  end.

Fixpoint sort_by_name (l : list Emulation.t) : list Emulation.t :=
  match l with
  | [] => []
  | x :: r => insert_by_name x (sort_by_name r)
  end.

(** ** The ending time *)

(** [datetime.fromtimestamp(emulation["end_at"]) if emulation["end_at"]
    else None], then [setattr(emulation, "ending_time", ending_time)]: an
    [end_at] of [None] or 0 is not converted; any other is, and the
    exception of the conversion is not caught. *)
Definition with_ending_time (fromtimestamp : Z -> result Z) (e : Emulation.t)
  : result Emulation.t :=
  let set ending_time :=
    {| Emulation.id := Emulation.id e;
       Emulation.name := Emulation.name e;
       Emulation.region := Emulation.region e;
       Emulation.status := Emulation.status e;
       Emulation.end_at := Emulation.end_at e;
       Emulation.ending_time := ending_time |} in
  match Emulation.end_at e with
  | Some t =>
      if t =? 0 then Ok (set None)
      else match fromtimestamp t with
           | Ok time => Ok (set (Some time))
           | Raise x => Raise x
           end
  | None => Ok (set None)
  end.

(** [for emulation in response.data: ...]: the emulations are converted
    in the order of the list and the first exception ends the loop. *)
Fixpoint add_ending_times (fromtimestamp : Z -> result Z) (l : list Emulation.t)
  : result (list Emulation.t) :=
  match l with
  | [] => Ok []
  | e :: rest =>
      match with_ending_time fromtimestamp e with
      | Ok e' =>
          match add_ending_times fromtimestamp rest with
          | Ok rest' => Ok (e' :: rest')
          | Raise x => Raise x
          end
      | Raise x => Raise x
      end
  end.

(** ** The world and the monad of the program *)

Section Monad.

(** The state of the remote service. *)
Variable R : Type.

Record world := {
  stdin : list string;
  trace : list event;
  remote : R
}.

Definition M (A : Type) : Type := world -> result A * world.

Definition ret {A} (a : A) : M A := fun w => (Ok a, w).

Definition bind {A B} (m : M A) (k : A -> M B) : M B :=
  fun w =>
    match m w with
    | (Ok a, w') => k a w'
    | (Raise e, w') => (Raise e, w')
    end.

Definition raise {A} (e : exn) : M A := fun w => (Raise e, w).

Definition lift {A} (r : result A) : M A := fun w => (r, w).

Definition emit (evs : list event) (w : world) : world :=
  {| stdin := stdin w; trace := trace w ++ evs; remote := remote w |}.

(** [print(s)] *)
Definition print (s : string) : M unit := fun w => (Ok tt, emit [Print s] w).

(** [input(prompt)] *)
Definition input (prompt : string) : M string :=
  fun w =>
    match stdin w with
    | [] => (Raise EOFError, emit [Prompt prompt] w)
    | line :: rest =>
        (Ok line,
         {| stdin := rest; trace := trace w ++ [Prompt prompt]; remote := remote w |})
    end.

(** A call of the remote API: the request is recorded, the service
    answers and moves to its next state. *)
Definition call {A} (request : event) (serve : R -> response A * R)
  : M (response A) :=
  fun w =>
    let '(answer, r) := serve (remote w) in
    (Ok answer, {| stdin := stdin w; trace := trace w ++ [request]; remote := r |}).

(** [for x in l: ...] where the body says whether it ended in [break]. *)
Fixpoint for_break {A} (l : list A) (body : A -> M bool) : M unit :=
  match l with
  | [] => ret tt
  | x :: rest =>
      bind (body x) (fun broke => if broke then ret tt else for_break rest body)
  end.

(** [for x in l: ...] without [break]. *)
Fixpoint for_each {A} (l : list A) (body : A -> M unit) : M unit :=
  match l with
  | [] => ret tt
  | x :: rest => bind (body x) (fun _ => for_each rest body)
  end.

End Monad.

Arguments stdin {R} w.
Arguments trace {R} w.
Arguments remote {R} w.
Arguments Build_world {R} stdin trace remote.
Arguments ret {R A} a.
Arguments bind {R A B} m k.
Arguments raise {R A} e.
Arguments lift {R A} r.
Arguments emit {R} evs w.
Arguments print {R} s.
Arguments input {R} prompt.
Arguments call {R A} request serve.
Arguments for_break {R A} l body.
Arguments for_each {R A} l body.

Notation "x <- m ;; k" := (bind m (fun x => k))
  (at level 61, m at next level, right associativity).
Notation "m ;; k" := (bind m (fun _ => k))
  (at level 61, right associativity).

(** ** The remote API *)

(** The four calls of the [tesuto] client the program uses; each answers
    with a status code and moves the service to its next state. *)
Class Tesuto (R : Type) := {
  Emulation_list : R -> response (list Emulation.t) * R;
  Emulation_put : Z -> emulation_data -> R -> response unit * R;
  EmulationDevice_list : Z -> R -> response (list Device.t) * R;
  EmulationDevice_put : Z -> Z -> bool -> R -> response unit * R
}.

(** ** The program *)

Section Program.

Context {R : Type} `{Tesuto R}.

(** [int((datetime.utcnow() + timedelta(hours=hours)).timestamp())], as
    the clock of the host gives it. *)
Variable expiry_after : Z -> Z.

(** [datetime.fromtimestamp], as the host converts: a time, or the
    exception it raises for a timestamp it cannot convert. *)
Variable fromtimestamp : Z -> result Z.

(** *** class API *)

Definition _dispatch {A} (api_response : response A) : M R (response A) :=
  if status_code api_response =? 401 then raise (Exception_ "Invalid API token")
  else if status_code api_response =? 404 then raise (Exception_ "Object not found")
  else ret api_response.

Definition get_emulations : M R (list Emulation.t) :=
  response <- (r <- call ApiEmulationList Emulation_list ;; _dispatch r) ;;
  lift (add_ending_times fromtimestamp (sort_by_name (data response))).

(** The [while True] loop that asks for the hours: one turn per line of
    input.  [int] raising [ValueError] and [input] raising [EOFError] are
    not caught. *)
Fixpoint ask_hours (lines : list string) (tr : list event)
  : result Z * list string * list event :=
  let tr := (tr ++ [Prompt "Hours to run (1-24): "])%list in
  match lines with
  | [] => (Raise EOFError, [], tr)
  | line :: rest =>
      match PyStr.int line with
      | None => (Raise ValueError, rest, tr)
      | Some hours =>
          if in_range 1 25 hours then (Ok (expiry_after hours), rest, tr)
          else ask_hours rest
                 (tr ++ [Print ("Invalid choice: " ++ PyStr.of_int hours)])%list
      end
  end.

Definition prompt_hours : M R Z :=
  fun w =>
    let '(r, lines, tr) := ask_hours (stdin w) (trace w) in
    (r, Build_world lines tr (remote w)).

(** The duration is asked for when a timer goes with [start]. *)
Definition ask_end_time (status : string) (timer : bool) : M R (option Z) :=
  if (status =? "start")%string && timer
  then (t <- prompt_hours ;; ret (Some t))
  else ret None.

(** [" (ending at {})".format(end_time) if end_time else ""] *)
Definition ending_at (end_time : option Z) : string :=
  match end_time with
  | Some t => if t =? 0 then EmptyString else " (ending at " ++ PyStr.of_int t ++ ")"
  | None => EmptyString
  end.

Definition toggle_emulations (emulations : list Emulation.t) (status : string)
           (timer : bool) : M R unit :=
  end_time <- ask_end_time status timer ;;
  let data := {| action := status; end_at := end_time |} in
  for_break emulations (fun emulation =>
    response <- (r <- call (ApiEmulationPut (Emulation.id emulation) data)
                           (Emulation_put (Emulation.id emulation) data) ;;
                 _dispatch r) ;;
    if status_code response =? 200 then
      print ("Set emulation " ++ Emulation.name emulation ++ " to " ++ status
             ++ ending_at end_time) ;;
      ret false
    else
      print ("Failed to change status to '" ++ status ++ "' for emulation "
             ++ Emulation.name emulation) ;;
      ret true) ;;
  input "Press [enter] to continue..." ;;
  ret tt.

(** ["Enabled" if is_enabled else "Disabled"] *)
Definition as_text (b : bool) : string := if b then "Enabled" else "Disabled".

Definition get_devices (emulation_id : Z) : M R (list Device.t) :=
  response <- (r <- call (ApiDeviceList emulation_id)
                         (EmulationDevice_list emulation_id) ;;
               _dispatch r) ;;
  ret (data response).

Definition toggle_devices (devices : list Device.t) (is_enabled : bool)
           (prompt : bool) : M R unit :=
  for_break devices (fun device =>
    response <- (r <- call (ApiDevicePut (Device.id device)
                                         (Device.emulation_id device) is_enabled)
                           (EmulationDevice_put (Device.id device)
                                                (Device.emulation_id device)
                                                is_enabled) ;;
                 _dispatch r) ;;
    if status_code response =? 200 then
      print (as_text is_enabled ++ " device " ++ Device.name device) ;;
      ret false
    else
      print ("Failed to toggle status for device " ++ Device.name device) ;;
      ret true) ;;
  if prompt then (input "Press [enter] to continue..." ;; ret tt) else ret tt.

(** *** Utilities *)

(** [print_table]: the titles, then one row per item with its 1-based
    number in the first column. *)
Definition table_rows {A} (headers : list (string * (A -> value))) (data : list A)
  : list (list value) :=
  map (fun '(i, row) => VInt (Z.of_nat i) :: map (fun h => snd h row) headers)
      (combine (seq 1 (List.length data)) data).

Definition print_table {A} (headers : list (string * (A -> value))) (data : list A)
  : M R unit :=
  fun w => (Ok tt, emit [Table ("#" :: map fst headers) (table_rows headers data)] w).

(** The [while True] loop of [get_user_selections]: one turn per line of
    input.  [None] is Python's [None], returned at the end of input. *)
Fixpoint get_user_selections_loop (choices : Z -> bool) (prompt : string)
         (lines : list string) (tr : list event)
  : result (option (list Z)) * list string * list event :=
  let tr := (tr ++ [Prompt (prompt ++ ": ")])%list in
  match lines with
  | [] => (Ok None, [], (tr ++ [Print nl])%list)
  | raw_input :: rest =>
      if (raw_input =? EmptyString)%string then (Ok (Some []), rest, tr)
      else
        match read_selections choices raw_input with
        | Ok selections => (Ok (Some selections), rest, tr)
        | Raise (InvalidChoice e) =>
            get_user_selections_loop choices prompt rest
              (tr ++ [Print ("Invalid choice: " ++ show_arg e)])%list
        | Raise e => (Raise e, rest, tr)
        end
  end.

Definition get_user_selections (choices : Z -> bool) (prompt : string)
  : M R (option (list Z)) :=
  print "Ctrl+D to exit | Enter to refresh" ;;
  fun w =>
    let '(r, lines, tr) := get_user_selections_loop choices prompt (stdin w) (trace w) in
    (r, Build_world lines tr (remote w)).

(** *** The console menu *)

Record FunctionItem := {
  text : string;
  function : M R unit;
  should_exit : bool
}.

Record ConsoleMenu := {
  title : string;
  prologue_text : string;
  items : list FunctionItem
}.

(** [menu.show()] of the [consolemenu] library: it draws the menu, reads
    the operator's choices and runs the functions of the chosen items. *)
Variable show : ConsoleMenu -> M R unit.

(** *** Prompts and management *)

Definition manage_devices (devices : list Device.t) : M R unit :=
  let prologue_text :=
    concat nl (map (fun d => Device.name d ++ " (" ++ as_text (Device.is_enabled d) ++ ")")
                   devices) in
  show {| title := "Emulation > Devices";
          prologue_text := prologue_text;
          items := [ {| text := "Enable";
                        function := toggle_devices devices true true;
                        should_exit := true |};
                     {| text := "Disable";
                        function := toggle_devices devices false true;
                        should_exit := true |} ] |}.

Definition device_headers : list (string * (Device.t -> value)) :=
  [ ("Name", fun d => VStr (Device.name d));
    ("Vendor", fun d => VStr (Device.vendor_name d));
    ("Model", fun d => VStr (Device.model_name d));
    ("Enabled", fun d => VBool (Device.is_enabled d)) ].

Fixpoint select_devices (fuel : nat) (emulation_id : Z) : M R unit :=
  match fuel with
  | O => raise OutOfFuel
  | S fuel =>
      devices <- get_devices emulation_id ;;
      print_table device_headers devices ;;
      let choices := in_range 1 (Z.of_nat (List.length devices) + 1) in
      selections <- get_user_selections choices "Select device(s)" ;;
      match selections with
      | None => ret tt
      | Some [] => select_devices fuel emulation_id
      | Some selections =>
          chosen <- lift (pick devices selections) ;;
          manage_devices chosen ;;
          select_devices fuel emulation_id
      end
  end.

Definition manage_devices_across_emulations (emulations : list Emulation.t)
  : M R unit :=
  line <- input ("Using a Comma Separated List" ++ nl
                 ++ "Enter Devices (or part of hostname): ") ;;
  let user_devices := user_devices_of line in
  answer <- input "Enable or Disable [e/d]: " ;;
  let to_enable := PyStr.lower answer in
  let desired_state := if (to_enable =? "d")%string then false else true in
  for_each emulations (fun emulation =>
    devices <- get_devices (Emulation.id emulation) ;;
    print (nl ++ "Updating Devices for Emulation: " ++ Emulation.name emulation) ;;
    toggle_devices (devices_to_toggle user_devices devices) desired_state false) ;;
  input (nl ++ "Press [Enter] to continue..." ++ nl) ;;
  ret tt.

Definition manage_emulations (fuel : nat) (emulations : list Emulation.t)
  : M R unit :=
  let prologue_text :=
    concat nl (map (fun e => Emulation.name e ++ " (" ++ Emulation.status e ++ ")")
                   emulations) in
  let item text function :=
    {| text := text; function := function; should_exit := true |} in
  show {| title := "Manage Emulations";
          prologue_text := prologue_text;
          items :=
            [ item "Start" (toggle_emulations emulations "start" false);
              item "Start w/timer" (toggle_emulations emulations "start" true);
              item "Stop" (toggle_emulations emulations "suspend" false);
              item "Delete" (toggle_emulations emulations "stop" false);
              match emulations with
              | [emulation] =>
                  {| text := "Show Devices";
                     function := select_devices fuel (Emulation.id emulation);
                     should_exit := false |}
              | _ =>
                  {| text := "Multi-Emulation Enable/Disable Devices";
                     function := manage_devices_across_emulations emulations;
                     should_exit := false |}
              end ] |}.

Definition emulation_headers : list (string * (Emulation.t -> value)) :=
  [ ("Name", fun e => VStr (Emulation.name e));
    ("Region", fun e => VStr (Emulation.region e));
    ("Status", fun e => VStr (Emulation.status e));
    ("Ends (UTC)", fun e => match Emulation.ending_time e with
                            | Some t => VTime t
                            | None => VNone
                            end) ].

Fixpoint select_emulations (fuel : nat) : M R unit :=
  match fuel with
  | O => raise OutOfFuel
  | S fuel =>
      emulations <- get_emulations ;;
      print_table emulation_headers emulations ;;
      let choices := in_range 1 (Z.of_nat (List.length emulations) + 1) in
      selections <- get_user_selections choices "Select emulation(s)" ;;
      match selections with
      | None => ret tt
      | Some [] => select_emulations fuel
      | Some selections =>
          chosen <- lift (pick emulations selections) ;;
          manage_emulations fuel chosen ;;
          select_emulations fuel
      end
  end.

(** *** main *)

(** How the process ends. *)
Inductive ending :=
| Exit (code : Z)
| Traceback (e : exn).

(** The [try] of [main] around [select_emulations()]: only
    [KeyboardInterrupt] is handled. *)
Definition main_try (fuel : nat) (w : world R) : ending * world R :=
  match select_emulations fuel w with
  | (Ok _, w') => (Exit 0, w')
  | (Raise KeyboardInterrupt, w') => (Exit 0, emit [Print nl] w')
  | (Raise e, w') => (Traceback e, w')
  end.

End Program.

Arguments FunctionItem R : clear implicits.
Arguments ConsoleMenu R : clear implicits.

(** ** Vocabulary of the statements *)

(** [c] occurs in [s]. *)
Fixpoint has_char (c : ascii) (s : string) : bool :=
  match s with
  | EmptyString => false
  | String x r => Ascii.eqb x c || has_char c r
  end.

(** A segment that is one integer literal without a dash. *)
Definition plain_integer (segment : string) (n : Z) : Prop :=
  has_char "-" segment = false /\ PyStr.int segment = Some n.

(** A segment made of two integer literals without a dash, joined by one
    dash. *)
Definition dash_pair (segment : string) (a b : Z) : Prop :=
  exists sa sb,
    segment = sa ++ "-" ++ sb /\
    has_char "-" sa = false /\ has_char "-" sb = false /\
    PyStr.int sa = Some a /\ PyStr.int sb = Some b.

Definition well_formed (segment : string) : Prop :=
  (exists n, plain_integer segment n) \/ (exists a b, dash_pair segment a b).

(** Sorted ascending by name, for the order [<=] of Python on strings. *)
Definition name_le (x y : Emulation.t) : Prop :=
  String.leb (Emulation.name x) (Emulation.name y) = true.

Definition Device_eq_dec (x y : Device.t) : {x = y} + {x <> y}.
Proof.
  decide equality;
    auto using Z.eq_dec, string_dec, bool_dec.
Defined.

(** The fragments of [user_devices] that, stripped, occur in [name]. *)
Definition matching_fragments (user_devices : list string) (name : string)
  : list string :=
  filter (fun sub_string => PyStr.contains (PyStr.strip sub_string) name) user_devices.

(** ** Sample data *)

Definition sample_device (id : Z) (name : string) : Device.t :=
  {| Device.id := id; Device.emulation_id := 1; Device.name := name;
     Device.vendor_name := "cisco"; Device.model_name := "router";
     Device.is_enabled := false |}.

Definition sample_emulation (id : Z) (name : string) : Emulation.t :=
  {| Emulation.id := id; Emulation.name := name; Emulation.region := "us-east";
     Emulation.status := "stopped"; Emulation.end_at := None;
     Emulation.ending_time := None |}.

(** ** Batches *)

Section Batch.
Context {R : Type} {A : Type}.

(** The status codes the service answers when [serve] is called for the
    targets one after another, and the state it is left in. *)
Fixpoint put_codes (serve : A -> R -> response unit * R) (targets : list A) (r : R)
  : list Z * R :=
  match targets with
  | [] => ([], r)
  | x :: rest =>
      let '(answer, r1) := serve x r in
      let '(codes, r2) := put_codes serve rest r1 in
      (status_code answer :: codes, r2)
  end.

(** What [_dispatch] makes of a status code that is not 200. *)
Definition failure_outcome (code : Z) : result unit :=
  if code =? 401 then Raise (Exception_ "Invalid API token")
  else if code =? 404 then Raise (Exception_ "Object not found")
  else Ok tt.

(** The body both toggling loops share: the call, [_dispatch], then the
    notice; [true] stands for [break]. *)
Definition put_body (request : A -> event) (serve : A -> R -> response unit * R)
           (success failure : A -> string) (x : A) : M R bool :=
  response <- (r <- call (request x) (serve x) ;; _dispatch r) ;;
  if status_code response =? 200 then print (success x) ;; ret false
  else print (failure x) ;; ret true.

(** The notice a failing target gets: none when [_dispatch] raises. *)
Definition failure_notice (failure : A -> string) (code : Z) (x : A) : list event :=
  if (code =? 401) || (code =? 404) then [] else [Print (failure x)].

(** The apply call and the success notice of every target. *)
Definition applied (request : A -> event) (success : A -> string) (targets : list A)
  : list event :=
  flat_map (fun x => [request x; Print (success x)]) targets.
End Batch.

Section Serve.
Context {R : Type} `{Tesuto R}.

(** The call one device, or one emulation, of a batch is applied with. *)
Definition serve_device (is_enabled : bool) (d : Device.t) : R -> response unit * R :=
  EmulationDevice_put (Device.id d) (Device.emulation_id d) is_enabled.

Definition serve_emulation (data : emulation_data) (e : Emulation.t)
  : R -> response unit * R :=
  Emulation_put (Emulation.id e) data.
End Serve.

Definition device_request (is_enabled : bool) (d : Device.t) : event :=
  ApiDevicePut (Device.id d) (Device.emulation_id d) is_enabled.

Definition device_success (is_enabled : bool) (d : Device.t) : string :=
  (if is_enabled then "Enabled" else "Disabled") ++ " device " ++ Device.name d.

Definition device_failure (d : Device.t) : string :=
  "Failed to toggle status for device " ++ Device.name d.

Definition emulation_request (data : emulation_data) (e : Emulation.t) : event :=
  ApiEmulationPut (Emulation.id e) data.

Definition emulation_success (status : string) (end_time : option Z) (e : Emulation.t)
  : string :=
  "Set emulation " ++ Emulation.name e ++ " to " ++ status
  ++ match end_time with
     | Some t => if t =? 0 then EmptyString
                 else " (ending at " ++ PyStr.of_int t ++ ")"
     | None => EmptyString
     end.

Definition emulation_failure (status : string) (e : Emulation.t) : string :=
  "Failed to change status to '" ++ status ++ "' for emulation " ++ Emulation.name e.

(** ** A scripted service and a one-shot menu, for the examples *)

(** The service answers the successive calls with the status codes of
    [answers], then with 200; it lists the same emulations and devices at
    every call. *)
Record script := {
  answers : list Z;
  listed_emulations : list Emulation.t;
  listed_devices : list Device.t
}.

Definition next_answer {A} (payload : script -> A) (s : script) : response A * script :=
  match answers s with
  | [] => ({| status_code := 200; data := payload s |}, s)
  | code :: rest =>
      ({| status_code := code; data := payload s |},
       {| answers := rest;
          listed_emulations := listed_emulations s;
          listed_devices := listed_devices s |})
  end.

#[export] Instance scripted : Tesuto script := {|
  Emulation_list := next_answer listed_emulations;
  Emulation_put := fun _ _ => next_answer (fun _ => tt);
  EmulationDevice_list := fun _ => next_answer listed_devices;
  EmulationDevice_put := fun _ _ _ => next_answer (fun _ => tt)
|}.

(** A clock for the examples: the epoch starts now. *)
Definition sample_expiry (hours : Z) : Z := 3600 * hours.

(** A conversion for the examples: the host converts the timestamps of
    the years 1970 to 9999 and raises [ValueError] for the others. *)
Definition sample_fromtimestamp (t : Z) : result Z :=
  if (0 <=? t) && (t <? 253402300800) then Ok t else Raise ValueError.

(** A menu whose operator picks the first item once. *)
Definition first_item {R} (menu : ConsoleMenu R) : M R unit :=
  match items menu with
  | item :: _ => function item
  | [] => ret tt
  end.

(** A world of the scripted service: the answers to come, the lines the
    operator will type, and nothing in the trace yet. *)
Definition sample_world (codes : list Z) (lines : list string) : world script :=
  Build_world lines []
    {| answers := codes; listed_emulations := []; listed_devices := [] |}.

(** ** Displays *)

(** The events that are no table. *)
Definition plain (ev : event) : Prop :=
  match ev with
  | Table _ _ => False
  | _ => True
  end.

(** An event is fine when, if it is a table with the titles of the
    emulation list, it shows a list of emulations sorted by name. *)
Definition sorted_display (ev : event) : Prop :=
  match ev with
  | Table titles rows =>
      titles = "#" :: map fst emulation_headers ->
      exists l, rows = table_rows emulation_headers l /\ Sorted name_le l
  | _ => True
  end.

(** Every run of [m] only adds events to the trace, all of them satisfy
    [P], and a value it returns satisfies [Q]. *)
Definition emits_with {R A} (P : event -> Prop) (Q : A -> Prop) (m : M R A) : Prop :=
  forall w, exists evs,
    trace (snd (m w)) = (trace w ++ evs)%list /\
    Forall P evs /\
    forall a, fst (m w) = Ok a -> Q a.

Definition emits {R A} (P : event -> Prop) (m : M R A) : Prop :=
  emits_with P (fun _ => True) m.

(** A world whose service lists the given emulations. *)
Definition listing_world (emulations : list Emulation.t) (lines : list string)
  : world script :=
  Build_world lines []
    {| answers := []; listed_emulations := emulations; listed_devices := [] |}.

(** ** More vocabulary: refused lines *)

(** The argument of the [InvalidChoice] a line is refused with, if it is
    refused. *)
Definition refusal (choices : Z -> bool) (line : string) : option choice_arg :=
  if (line =? EmptyString)%string then None
  else match read_selections choices line with
       | Raise (InvalidChoice e) => Some e
       | _ => None
       end.

(** What the prompt shows while it goes through refused lines. *)
Definition refusals (choices : Z -> bool) (prompt : string) (lines : list string)
  : list event :=
  flat_map
    (fun line =>
       match refusal choices line with
       | Some e => [Prompt (prompt ++ ": "); Print ("Invalid choice: " ++ show_arg e)]
       | None => []
       end)
    lines.

(** ** More vocabulary: calls in a trace *)

Definition is_api_call (ev : event) : bool :=
  match ev with
  | ApiEmulationList | ApiEmulationPut _ _ | ApiDeviceList _ | ApiDevicePut _ _ _ => true
  | Print _ | Prompt _ | Table _ _ => false
  end.

(** The calls of the remote API a trace holds, in order. *)
Definition api_calls (tr : list event) : list event := filter is_api_call tr.


(** ** More vocabulary: names *)

(** The emulation is named [n]. *)
Definition has_name (n : string) (e : Emulation.t) : bool :=
  String.eqb (Emulation.name e) n.

(** ** More vocabulary: what a run may raise *)

(** The exceptions [datetime.fromtimestamp] is documented to raise. *)
Definition conversion_error (e : exn) : Prop :=
  e = ValueError \/ e = OSError \/ e = OverflowError.

(** The host's conversion raises nothing but those. *)
Definition documented (fromtimestamp : Z -> result Z) : Prop :=
  forall t e, fromtimestamp t = Raise e -> conversion_error e.

(** The emulation [e] with its ending time set is [e']. *)
Definition timed (fromtimestamp : Z -> result Z) (e e' : Emulation.t) : Prop :=
  with_ending_time fromtimestamp e = Ok e'.

(** The host converts the [end_at] of the emulation, when it has to. *)
Definition converts (fromtimestamp : Z -> result Z) (e : Emulation.t) : Prop :=
  exists e', timed fromtimestamp e e'.

(** The exceptions that leave the program: the two of [_dispatch], the
    three of the conversion of [end_at], the [ValueError] of the prompt for
    the hours, and the [EOFError] of a prompt at the end of the input. *)
Definition expected (e : exn) : Prop :=
  e = Exception_ "Invalid API token" \/
  e = Exception_ "Object not found" \/
  e = ValueError \/
  e = EOFError \/
  e = OSError \/
  e = OverflowError.

(** Started with fewer than [n] lines of input left, [m] leaves no more
    lines than it found, raises nothing but the expected exceptions, and
    returns values that satisfy [Q]. *)
Definition safe_with {R A} (n : nat) (Q : A -> Prop) (m : M R A) : Prop :=
  forall w,
    (List.length (stdin w) < n)%nat ->
    (List.length (stdin (snd (m w))) <= List.length (stdin w))%nat /\
    (forall e, fst (m w) = Raise e -> expected e) /\
    (forall a, fst (m w) = Ok a -> Q a).

Definition safe {R A} (n : nat) (m : M R A) : Prop := safe_with n (fun _ => True) m.

(** ** The start of the program *)

Section Main.
Context {R : Type} `{Tesuto R}.
Variable expiry_after : Z -> Z.
Variable fromtimestamp : Z -> result Z.
Variable show : ConsoleMenu R -> M R unit.

(** [tesuto.config.set("api_token", token)]: the service as it answers to
    the calls made with that token. *)
Variable with_token : string -> R -> R.



End Main.

(** A service that lists the given devices, answers 200 to every list and
    [code] to every update. *)
Definition fixed_answers (code : Z) (devices : list Device.t) : Tesuto unit := {|
  Emulation_list := fun r => ({| status_code := 200; data := [] |}, r);
  Emulation_put := fun _ _ r => ({| status_code := code; data := tt |}, r);
  EmulationDevice_list := fun _ r => ({| status_code := 200; data := devices |}, r);
  EmulationDevice_put := fun _ _ _ r => ({| status_code := code; data := tt |}, r)
|}.

(** An emulation that ends at the timestamp [end_at]. *)
Definition ending_emulation (id : Z) (name : string) (end_at : Z) : Emulation.t :=
  {| Emulation.id := id;
     Emulation.name := name;
     Emulation.region := "us-east";
     Emulation.status := "running";
     Emulation.end_at := Some end_at;
     Emulation.ending_time := None |}.

(** The same emulation once the host has set its ending time to that
    timestamp. *)
Definition timed_emulation (id : Z) (name : string) (end_at : Z) : Emulation.t :=
  {| Emulation.id := id;
     Emulation.name := name;
     Emulation.region := "us-east";
     Emulation.status := "running";
     Emulation.end_at := Some end_at;
     Emulation.ending_time := Some end_at |}.

(** A service that answers 200 to every call and always lists the given
    emulations. *)
Definition listing_answers (emulations : list Emulation.t) : Tesuto unit := {|
  Emulation_list := fun r => ({| status_code := 200; data := emulations |}, r);
  Emulation_put := fun _ _ r => ({| status_code := 200; data := tt |}, r);
  EmulationDevice_list := fun _ r => ({| status_code := 200; data := [] |}, r);
  EmulationDevice_put := fun _ _ _ r => ({| status_code := 200; data := tt |}, r)
|}.

(** ** More vocabulary: toggling across emulations *)

(** The events of a run that fetches devices and sets them all to
    [is_enabled]: no table, no call for an emulation. *)
Definition only_device_calls (is_enabled : bool) (ev : event) : Prop :=
  match ev with
  | Print _ | Prompt _ | ApiDeviceList _ => True
  | ApiDevicePut _ _ b => b = is_enabled
  | Table _ _ | ApiEmulationList | ApiEmulationPut _ _ => False
  end.

(** The emulations whose devices a trace fetches, in order. *)
Definition fetched (tr : list event) : list Z :=
  flat_map (fun ev => match ev with
                      | ApiDeviceList emulation_id => [emulation_id]
                      | _ => []
                      end) tr.

(** * Properties *)

(** ** Strings *)

Module PyStrFacts.
Import PyStr.

Lemma prefix_empty (s : string) : prefix EmptyString s = true.
Proof. destruct s; reflexivity. Qed.

Lemma contains_empty (s : string) : contains EmptyString s = true.
Proof. destruct s; reflexivity. Qed.

Lemma contains_char (c : ascii) (s : string) :
  contains (String c EmptyString) s = has_char c s.
Proof.
  induction s as [|x r IH]; [reflexivity|].
  cbn [contains has_char prefix]. rewrite IH, prefix_empty.
  destruct (ascii_dec c x) as [->|Hne].
  - now rewrite Ascii.eqb_refl.
  - destruct (Ascii.eqb_spec x c); [congruence|reflexivity].
Qed.

Lemma has_char_app (c : ascii) (s t : string) :
  has_char c (s ++ t) = has_char c s || has_char c t.
Proof.
  induction s as [|x r IH]; cbn [append has_char]; [reflexivity|].
  now rewrite IH, orb_assoc.
Qed.

Lemma split_not_nil (sep : ascii) (s : string) : split sep s <> [].
Proof.
  induction s as [|x r IH]; cbn [split]; [discriminate|].
  destruct (Ascii.eqb x sep); [discriminate|].
  destruct (split sep r); [contradiction|discriminate].
Qed.

Lemma split_no_sep (sep : ascii) (s : string) :
  has_char sep s = false -> split sep s = [s].
Proof.
  induction s as [|x r IH]; cbn [split has_char]; [reflexivity|].
  intros Hno. apply orb_false_iff in Hno as [Hx Hr].
  now rewrite Hx, (IH Hr).
Qed.

Lemma split_app_sep (sep : ascii) (s t : string) :
  has_char sep s = false ->
  split sep (s ++ String sep t) = s :: split sep t.
Proof.
  induction s as [|x r IH]; cbn [append split has_char].
  - intros _. now rewrite Ascii.eqb_refl.
  - intros Hno. apply orb_false_iff in Hno as [Hx Hr].
    now rewrite Hx, (IH Hr).
Qed.

(** The pieces of a split hold no separator, and joining them with the
    separator gives the string back. *)
Lemma split_pieces (sep : ascii) (s : string) :
  Forall (fun p => has_char sep p = false) (split sep s).
Proof.
  induction s as [|x r IH]; cbn [split].
  - repeat constructor.
  - destruct (Ascii.eqb x sep) eqn:Hx.
    + constructor; [reflexivity|exact IH].
    + destruct (split sep r) as [|h t].
      * repeat constructor. cbn. now rewrite Hx.
      * inversion IH; subst. constructor; [|assumption].
        cbn. now rewrite Hx.
Qed.

Lemma split_join (sep : ascii) (s : string) :
  concat (String sep EmptyString) (split sep s) = s.
Proof.
  induction s as [|x r IH]; cbn [split]; [reflexivity|].
  pose proof (split_not_nil sep r) as Hnn.
  destruct (Ascii.eqb_spec x sep) as [->|Hne].
  - destruct (split sep r) as [|h t]; [contradiction|].
    change (concat (String sep EmptyString) (EmptyString :: h :: t))
      with (String sep (concat (String sep EmptyString) (h :: t))).
    now rewrite IH.
  - destruct (split sep r) as [|h t]; [contradiction|].
    rewrite <- IH. destruct t; reflexivity.
Qed.

Lemma split_two (sep : ascii) (s sa sb : string) :
  split sep s = [sa; sb] <->
  s = sa ++ String sep sb /\ has_char sep sa = false /\ has_char sep sb = false.
Proof.
  split.
  - intros Hs. pose proof (split_join sep s) as Hj.
    pose proof (split_pieces sep s) as Hp. rewrite Hs in Hj, Hp.
    cbn in Hj. apply Forall_cons_iff in Hp as [Ha Hp].
    apply Forall_cons_iff in Hp as [Hb _]. now rewrite <- Hj.
  - intros (-> & Ha & Hb). now rewrite split_app_sep, split_no_sep.
Qed.

Lemma lower_app (s t : string) : lower (s ++ t) = lower s ++ lower t.
Proof. induction s as [|x r IH]; cbn; [reflexivity|now rewrite IH]. Qed.

End PyStrFacts.

(** ** Decimal literals: [int(str(n)) = n] *)

Module IntFacts.
Import PyStr PyStrFacts.

Ltac eval_digit :=
  repeat match goal with
         | |- context [code ?c - 48] =>
             let v := eval vm_compute in (code c - 48) in
             change (code c - 48) with v
         end.

Lemma scan_uint_acc (d : Decimal.uint) (acc : positive) :
  scan_digits (NilEmpty.string_of_uint d) (Z.pos acc) PDigit
  = Some (Z.pos (Pos.of_uint_acc d acc), EmptyString).
Proof.
  revert acc.
  induction d as [|d IH|d IH|d IH|d IH|d IH|d IH|d IH|d IH|d IH|d IH];
    intros acc; [reflexivity|..];
    cbn [NilEmpty.string_of_uint Pos.of_uint_acc];
    change (scan_digits (String ?c ?r) ?a PDigit)
      with (scan_digits r (10 * a + (code c - 48)) PDigit);
    rewrite <- IH; f_equal; eval_digit; lia.
Qed.

Lemma scan_uint (d : Decimal.uint) (prev : prev_char) :
  (d <> Decimal.Nil \/ prev = PDigit) -> prev <> PUnderscore ->
  scan_digits (NilEmpty.string_of_uint d) 0 prev
  = Some (Z.of_N (Pos.of_uint d), EmptyString).
Proof.
  revert prev.
  induction d as [|d IH|d IH|d IH|d IH|d IH|d IH|d IH|d IH|d IH|d IH];
    intros prev Hd Hp;
    [ destruct Hd as [Hd| ->]; [congruence|reflexivity]
    | cbn [NilEmpty.string_of_uint Pos.of_uint];
      change (scan_digits (String "0" ?r) 0 prev) with (scan_digits r 0 PDigit);
      apply IH; [now right|discriminate]
    | cbn [NilEmpty.string_of_uint Pos.of_uint];
      change (scan_digits (String ?c ?r) 0 prev)
        with (scan_digits r (10 * 0 + (code c - 48)) PDigit);
      cbn [Z.of_N]; rewrite <- scan_uint_acc; f_equal; eval_digit; lia .. ].
Qed.

Lemma has_dash_uint (d : Decimal.uint) :
  has_char "-" (NilEmpty.string_of_uint d) = false.
Proof.
  induction d; cbn [NilEmpty.string_of_uint has_char]; [reflexivity|..];
    now rewrite IHd.
Qed.

Lemma int_digits (d : Decimal.uint) :
  d <> Decimal.Nil ->
  int (NilEmpty.string_of_uint d) = Some (Z.of_N (Pos.of_uint d)).
Proof.
  intros Hd.
  assert (Hs : scan_digits (NilEmpty.string_of_uint d) 0 PStart
               = Some (Z.of_N (Pos.of_uint d), EmptyString))
    by (apply scan_uint; [now left|discriminate]).
  destruct d; [congruence|..]; unfold int;
    cbn [NilEmpty.string_of_uint lstrip_by] in *;
    change (is_c_space _) with false; cbv beta iota;
    rewrite Hs; cbn [lstrip_by]; f_equal; apply Z.mul_1_l.
Qed.

(** A natural number prints as its digits, which [int] reads back. *)
Lemma int_of_int (n : Z) : 0 <= n -> int (of_int n) = Some n.
Proof.
  intros Hn. destruct n as [|p|p]; [reflexivity| |lia].
  unfold of_int. cbn [Z.to_int NilZero.string_of_int].
  pose proof (DecimalPos.Unsigned.to_uint_nonnil p) as Hnn.
  replace (NilZero.string_of_uint (Pos.to_uint p))
    with (NilEmpty.string_of_uint (Pos.to_uint p))
    by (destruct (Pos.to_uint p); [contradiction|reflexivity..]).
  now rewrite int_digits, DecimalPos.Unsigned.of_to.
Qed.

Lemma has_dash_of_int (n : Z) : 0 <= n -> has_char "-" (of_int n) = false.
Proof.
  intros Hn. destruct n as [|p|p]; [reflexivity| |lia].
  unfold of_int. cbn [Z.to_int NilZero.string_of_int].
  unfold NilZero.string_of_uint.
  destruct (Pos.to_uint p) eqn:Hp; [reflexivity|..];
    rewrite <- Hp; apply has_dash_uint.
Qed.

End IntFacts.

(** ** The selection parser *)

Section Parser.
Import PyStr PyStrFacts IntFacts.

Lemma range_length (a b : Z) : List.length (range a b) = Z.to_nat (b - a).
Proof. unfold range. now rewrite length_map, length_seq. Qed.

Lemma range_nth (a b : Z) (i : nat) :
  (i < List.length (range a b))%nat -> nth i (range a b) 0 = a + Z.of_nat i.
Proof.
  rewrite range_length. intros Hi. unfold range.
  set (f := fun i => a + Z.of_nat i).
  rewrite nth_indep with (d' := f O) by now rewrite length_map, length_seq.
  now rewrite map_nth, seq_nth.
Qed.

Lemma range_empty (a b : Z) : b <= a -> range a b = [].
Proof. intros Hab. unfold range. now replace (Z.to_nat (b - a)) with O by lia. Qed.

Lemma parse_segment_plain (segment : string) (n : Z) :
  plain_integer segment n -> parse_segment segment = Ok [n].
Proof.
  intros [Hd Hn]. unfold parse_segment. now rewrite contains_char, Hd, Hn.
Qed.

Lemma parse_segment_pair (segment : string) (a b : Z) :
  dash_pair segment a b -> parse_segment segment = Ok (range a (b + 1)).
Proof.
  intros (sa & sb & -> & Ha & Hb & Hia & Hib). unfold parse_segment.
  change (sa ++ "-" ++ sb) with (sa ++ String "-" sb).
  rewrite contains_char, has_char_app. cbn [has_char].
  rewrite Ascii.eqb_refl, orb_true_r.
  rewrite split_app_sep, split_no_sep by assumption.
  cbn [map]. now rewrite Hia, Hib.
Qed.

Lemma parse_segment_well_formed (segment : string) :
  well_formed segment -> exists ns, parse_segment segment = Ok ns.
Proof.
  intros [[n Hn]|(a & b & Hab)]; eexists.
  - eapply parse_segment_plain; eassumption.
  - eapply parse_segment_pair; eassumption.
Qed.

Lemma parse_segment_malformed (segment : string) :
  ~ well_formed segment ->
  parse_segment segment = Raise (InvalidChoice (ArgStr segment)).
Proof.
  intros Hbad. unfold parse_segment. rewrite contains_char.
  destruct (has_char "-" segment) eqn:Hd.
  - destruct (split "-" segment) as [|sa [|sb [|sc t]]] eqn:Hs; cbn [map];
      try reflexivity.
    + now destruct (int sa).
    + destruct (int sa) as [a|] eqn:Ha, (int sb) as [b|] eqn:Hb; try reflexivity.
      exfalso. apply Hbad. right. exists a, b, sa, sb.
      apply split_two in Hs as (-> & Hsa & Hsb). repeat split; assumption.
    + now destruct (int sa), (int sb).
  - destruct (int segment) as [n|] eqn:Hn; [|reflexivity].
    exfalso. apply Hbad. left. exists n. now split.
Qed.

Lemma parse_segments_app (good more : list string) (acc : list Z) :
  Forall well_formed good ->
  exists ns, parse_segments (good ++ more) acc = parse_segments more (acc ++ ns).
Proof.
  intros Hgood. revert acc.
  induction Hgood as [|seg good Hseg _ IH]; intros acc.
  - exists []. now rewrite app_nil_r.
  - destruct (parse_segment_well_formed seg Hseg) as [ns Hns].
    cbn [app parse_segments]. rewrite Hns.
    destruct (IH (acc ++ ns)%list) as [ms Hms].
    exists (ns ++ ms)%list. now rewrite Hms, app_assoc.
Qed.

Lemma validate_ok (choices : Z -> bool) (selections : list Z) :
  validate choices selections = Ok tt <->
  Forall (fun n => choices n = true) selections.
Proof.
  induction selections as [|n rest IH]; cbn [validate].
  - split; [constructor|reflexivity].
  - destruct (choices n) eqn:Hn.
    + rewrite IH. split; [now constructor|now inversion 1].
    + split; [discriminate|]. inversion 1; congruence.
Qed.

Lemma validate_first_bad (choices : Z -> bool) (before after : list Z) (n : Z) :
  Forall (fun m => choices m = true) before -> choices n = false ->
  validate choices (before ++ n :: after) = Raise (InvalidChoice (ArgInt n)).
Proof.
  intros Hb Hn. induction Hb as [|m before Hm _ IH]; cbn [app validate].
  - now rewrite Hn.
  - now rewrite Hm.
Qed.

Lemma read_selections_ok (choices : Z -> bool) (line : string) (sel : list Z) :
  read_selections choices line = Ok sel ->
  Forall (fun n => choices n = true) sel.
Proof.
  unfold read_selections.
  destruct (parse_segments (split "," line) []) as [l|e]; [|discriminate].
  destruct (validate choices l) as [[]|e] eqn:Hv; [|discriminate].
  intros [= <-]. now apply validate_ok.
Qed.

Lemma loop_ok (choices : Z -> bool) (prompt : string) (lines : list string) :
  forall tr sel lines' tr',
    get_user_selections_loop choices prompt lines tr = (Ok (Some sel), lines', tr') ->
    Forall (fun n => choices n = true) sel.
Proof.
  induction lines as [|line rest IH]; intros tr sel lines' tr';
    cbn [get_user_selections_loop]; [discriminate|].
  destruct (String.eqb line EmptyString).
  - intros [= <- _ _]. constructor.
  - destruct (read_selections choices line) as [l|e] eqn:Hr.
    + intros [= <- _ _]. eapply read_selections_ok, Hr.
    + destruct e; try discriminate. apply IH.
Qed.

Lemma pick_in_bounds {A} (l : list A) (sel : list Z) :
  Forall (fun n => in_range 1 (Z.of_nat (List.length l) + 1) n = true) sel ->
  exists chosen,
    pick l sel = Ok chosen /\
    Forall2 (fun n x => nth_error l (Z.to_nat (n - 1)) = Some x) sel chosen.
Proof.
  induction 1 as [|n sel Hn _ (chosen & Hp & Hc)]; cbn [pick].
  - exists []. split; [reflexivity|constructor].
  - unfold in_range in Hn. apply andb_true_iff in Hn as [H1 H2].
    apply Z.leb_le in H1. apply Z.ltb_lt in H2.
    unfold getitem.
    replace (n - 1 <? 0) with false by (symmetry; apply Z.ltb_ge; lia).
    replace ((0 <=? n - 1) && (n - 1 <? Z.of_nat (List.length l))) with true
      by (symmetry; apply andb_true_iff; split;
          [apply Z.leb_le|apply Z.ltb_lt]; lia).
    destruct (nth_error l (Z.to_nat (n - 1))) as [x|] eqn:Hx.
    + rewrite Hp. exists (x :: chosen). split; [reflexivity|now constructor].
    + apply nth_error_None in Hx. lia.
Qed.

End Parser.

(** ** The parser on small inputs *)

Example split_keeps_empty_pieces :
  PyStr.split "," "1,3-5,,8" = ["1"; "3-5"; EmptyString; "8"].
Proof. reflexivity. Qed.

Example int_accepts_and_refuses :
  map PyStr.int [" 12 "; "-7"; "+1_000"; "007"; "1__0"; "_1"; "1_"; EmptyString;
                 "- 1"; "0x1"; "1 2"; "one"]
  = [Some 12; Some (-7); Some 1000; Some 7; None; None; None; None;
     None; None; None; None].
Proof. reflexivity. Qed.

Example of_int_prints_decimal :
  map PyStr.of_int [0; 7; -12; 1024] = ["0"; "7"; "-12"; "1024"].
Proof. reflexivity. Qed.

Example strip_and_lower :
  map PyStr.strip [" csr "; "a b"; "  "] = ["csr"; "a b"; EmptyString]
  /\ PyStr.lower "CsR1-x" = "csr1-x".
Proof. split; reflexivity. Qed.

Example selection_1_3_5_8 :
  read_selections (in_range 1 9) "1,3-5,8" = Ok [1; 3; 4; 5; 8].
Proof. reflexivity. Qed.

Example selection_keeps_duplicates_and_order :
  read_selections (in_range 1 9) "3,1-3,3" = Ok [3; 1; 2; 3; 3].
Proof. reflexivity. Qed.

Example blank_line_is_refresh_and_eof_is_none :
  get_user_selections_loop (in_range 1 4) "Select" [EmptyString; "1"] []
  = (Ok (Some []), ["1"], [Prompt "Select: "])
  /\ get_user_selections_loop (in_range 1 4) "Select" [] []
     = (Ok None, [], [Prompt "Select: "; Print nl]).
Proof. split; reflexivity. Qed.

(** ** Claims about the selection parser *)

(** C4 (as amended): for all integers [0 <= a <= b], parsing the segment
    written [a-b] in decimal yields exactly the integers [a, a+1, ..., b] in
    that order. *)
Theorem C4_range_expands (a b : Z) :
  0 <= a -> a <= b ->
  exists ns,
    parse_segment (PyStr.of_int a ++ "-" ++ PyStr.of_int b) = Ok ns /\
    Z.of_nat (List.length ns) = b - a + 1 /\
    forall i, (i < List.length ns)%nat -> nth i ns 0 = a + Z.of_nat i.
Proof.
  intros Ha Hab. exists (range a (b + 1)). split; [|split].
  - apply parse_segment_pair.
    exists (PyStr.of_int a), (PyStr.of_int b).
    repeat split;
      first [apply IntFacts.has_dash_of_int|apply IntFacts.int_of_int]; lia.
  - rewrite range_length. lia.
  - apply range_nth.
Qed.

Lemma C4_range_expands_witness :
  exists ns,
    parse_segment "3-5" = Ok ns /\
    Z.of_nat (List.length ns) = 5 - 3 + 1 /\
    forall i, (i < List.length ns)%nat -> nth i ns 0 = 3 + Z.of_nat i.
Proof. apply (C4_range_expands 3 5); lia. Defined.

(** C4 fails for a negative bound: the segment [-1-2] splits at its dashes
    into three pieces, the first of them empty, and is refused. *)
Lemma C4_negative_bound_refused :
  -1 <= 2 /\
  PyStr.of_int (-1) ++ "-" ++ PyStr.of_int 2 = "-1-2" /\
  parse_segment "-1-2" = Raise (InvalidChoice (ArgStr "-1-2")).
Proof. repeat split. discriminate. Qed.

(** C5 (as amended): when the first segment of a line that is neither one
    dash-free integer nor two dash-free integers joined by a dash is
    [segment], the line is refused with [InvalidChoice(segment)]: the message
    names that segment, nothing is returned for the line and the prompt
    starts again on the rest of the input.  A reversed range is no error: it
    adds no integer. *)
Theorem C5_malformed_segment_restarts
        (choices : Z -> bool) (prompt line : string) (rest : list string)
        (tr : list event) (good more : list string) (segment : string) :
  line <> EmptyString ->
  PyStr.split "," line = (good ++ segment :: more)%list ->
  Forall well_formed good ->
  ~ well_formed segment ->
  get_user_selections_loop choices prompt (line :: rest) tr
  = get_user_selections_loop choices prompt rest
      (tr ++ [Prompt (prompt ++ ": "); Print ("Invalid choice: " ++ segment)])
  /\ read_selections choices line = Raise (InvalidChoice (ArgStr segment))
  /\ forall s a b, dash_pair s a b -> b < a -> parse_segment s = Ok [].
Proof.
  intros Hline Hsplit Hgood Hbad.
  assert (Hread : read_selections choices line = Raise (InvalidChoice (ArgStr segment))).
  { unfold read_selections. rewrite Hsplit.
    destruct (parse_segments_app good (segment :: more) [] Hgood) as [ns ->].
    cbn [parse_segments]. now rewrite parse_segment_malformed. }
  split; [|split; [exact Hread|]].
  - cbn [get_user_selections_loop].
    destruct (String.eqb_spec line EmptyString) as [|_]; [contradiction|].
    rewrite Hread. cbn [show_arg]. now rewrite <- app_assoc.
  - intros s a b Hs Hba. rewrite (parse_segment_pair s a b Hs).
    now rewrite range_empty by lia.
Qed.

Lemma C5_malformed_segment_restarts_witness :
  get_user_selections_loop (in_range 1 4) "Select" ["1,x,2"; "2"] []
  = get_user_selections_loop (in_range 1 4) "Select" ["2"]
      ([] ++ [Prompt ("Select" ++ ": "); Print ("Invalid choice: " ++ "x")])
  /\ read_selections (in_range 1 4) "1,x,2" = Raise (InvalidChoice (ArgStr "x"))
  /\ forall s a b, dash_pair s a b -> b < a -> parse_segment s = Ok [].
Proof.
  apply (C5_malformed_segment_restarts (in_range 1 4) "Select" "1,x,2" ["2"] []
           ["1"] ["2"] "x").
  - discriminate.
  - reflexivity.
  - constructor; [|constructor]. left. exists 1. split; reflexivity.
  - intros [[n [_ Hn]]|(a & b & sa & sb & Hs & _)]; [discriminate|].
    destruct sa as [|c [|? ?]]; discriminate.
Defined.

(** C5 fails for a reversed range: the line [3-1] raises no error and the
    empty selection is returned. *)
Lemma C5_reversed_range_accepted :
  dash_pair "3-1" 3 1 /\ 1 < 3 /\
  get_user_selections_loop (in_range 1 4) "Select emulation(s)" ["3-1"] []
  = (Ok (Some []), [], [Prompt "Select emulation(s): "]).
Proof.
  repeat split. exists "3", "1". repeat split.
Qed.

(** C8: a selection the parser returns holds only members of [choices];
    when the integers of a line are parsed and one of them is no member,
    the first such integer is named in an [InvalidChoice], nothing is
    returned for the line and the prompt starts again; with [choices] the
    numbers of the displayed list, every [list[n - 1]] of the selection
    loops is within bounds. *)
Theorem C8_selection_within_choices :
  (forall R (choices : Z -> bool) (prompt : string) (w w' : world R) (sel : list Z),
      get_user_selections choices prompt w = (Ok (Some sel), w') ->
      Forall (fun n => choices n = true) sel)
  /\ (forall (choices : Z -> bool) (prompt line : string) (rest : list string)
             (tr : list event) (before after : list Z) (n : Z),
         line <> EmptyString ->
         parse_segments (PyStr.split "," line) [] = Ok (before ++ n :: after)%list ->
         Forall (fun m => choices m = true) before ->
         choices n = false ->
         read_selections choices line = Raise (InvalidChoice (ArgInt n)) /\
         get_user_selections_loop choices prompt (line :: rest) tr
         = get_user_selections_loop choices prompt rest
             (tr ++ [Prompt (prompt ++ ": ");
                     Print ("Invalid choice: " ++ PyStr.of_int n)]))
  /\ (forall R A (shown : list A) (prompt : string) (w w' : world R) (sel : list Z),
         get_user_selections (in_range 1 (Z.of_nat (List.length shown) + 1)) prompt w
         = (Ok (Some sel), w') ->
         exists chosen,
           pick shown sel = Ok chosen /\
           Forall2 (fun n x => 1 <= n <= Z.of_nat (List.length shown) /\
                               nth_error shown (Z.to_nat (n - 1)) = Some x)
                   sel chosen).
Proof.
  assert (Hret : forall R (choices : Z -> bool) prompt (w w' : world R) sel,
             get_user_selections choices prompt w = (Ok (Some sel), w') ->
             Forall (fun n => choices n = true) sel).
  { intros R choices prompt w w' sel. unfold get_user_selections, bind, print.
    destruct (get_user_selections_loop choices prompt _ _) as [[r lines] tr] eqn:Hl.
    intros [= -> _]. eapply loop_ok, Hl. }
  split; [exact Hret|split].
  - intros choices prompt line rest tr before after n Hline Hparse Hb Hn.
    assert (Hread : read_selections choices line = Raise (InvalidChoice (ArgInt n))).
    { unfold read_selections. rewrite Hparse.
      now rewrite validate_first_bad. }
    split; [exact Hread|].
    cbn [get_user_selections_loop].
    destruct (String.eqb_spec line EmptyString) as [|_]; [contradiction|].
    rewrite Hread. cbn [show_arg]. now rewrite <- app_assoc.
  - intros R A shown prompt w w' sel Hsel.
    pose proof (Hret _ _ _ _ _ _ Hsel) as Hin.
    destruct (pick_in_bounds shown sel Hin) as (chosen & Hp & Hc).
    exists chosen. split; [exact Hp|].
    clear Hp Hsel. revert Hin. induction Hc as [|n x sel chosen Hx _ IH];
      intros Hin; [constructor|].
    inversion Hin as [|? ? Hn Hin']; subst. constructor; [|now apply IH].
    split; [|exact Hx]. unfold in_range in Hn.
    apply andb_true_iff in Hn as [H1 H2].
    apply Z.leb_le in H1. apply Z.ltb_lt in H2. lia.
Qed.

Lemma C8_selection_within_choices_witness :
  Forall (fun n => in_range 1 4 n = true) [2; 3]
  /\ get_user_selections_loop (in_range 1 4) "Select" ["2,7"; "1"] []
     = get_user_selections_loop (in_range 1 4) "Select" ["1"]
         ([] ++ [Prompt ("Select" ++ ": "); Print ("Invalid choice: " ++ PyStr.of_int 7)])
  /\ exists chosen,
       pick ["a"; "b"; "c"] [2; 3] = Ok chosen /\
       Forall2 (fun n x => 1 <= n <= Z.of_nat (List.length ["a"; "b"; "c"]) /\
                           nth_error ["a"; "b"; "c"] (Z.to_nat (n - 1)) = Some x)
               [2; 3] chosen.
Proof.
  destruct C8_selection_within_choices as (Hmember & Hrefused & Hbounds).
  split; [|split].
  - apply (Hmember unit (in_range 1 4) "Select" (Build_world ["2-3"] [] tt)
             (Build_world []
                [Print "Ctrl+D to exit | Enter to refresh"; Prompt "Select: "] tt)).
    reflexivity.
  - apply (Hrefused (in_range 1 4) "Select" "2,7" ["1"] [] [2] [] 7).
    + discriminate.
    + reflexivity.
    + repeat constructor.
    + reflexivity.
  - apply (Hbounds unit string ["a"; "b"; "c"] "Select" (Build_world ["2-3"] [] tt)
             (Build_world []
                [Print "Ctrl+D to exit | Enter to refresh"; Prompt "Select: "] tt)).
    reflexivity.
Defined.

(** ** The substring matcher *)

Section Matcher.
Import PyStr PyStrFacts.

Lemma inner_loop (device : Device.t) (user_devices : list string) :
  forall acc,
    fold_left
      (fun acc sub_string =>
         if contains (strip sub_string) (Device.name device)
         then (acc ++ [device])%list else acc)
      user_devices acc
    = (acc ++ map (fun _ => device)
                  (matching_fragments user_devices (Device.name device)))%list.
Proof.
  unfold matching_fragments.
  induction user_devices as [|f fs IH]; intros acc; cbn [fold_left filter map].
  - now rewrite app_nil_r.
  - rewrite IH. destruct (contains (strip f) (Device.name device)); [|reflexivity].
    cbn [map]. now rewrite <- app_assoc.
Qed.

Lemma devices_to_toggle_flat_map (user_devices : list string)
      (devices : list Device.t) :
  devices_to_toggle user_devices devices
  = flat_map (fun device =>
                map (fun _ => device)
                    (matching_fragments user_devices (Device.name device)))
             devices.
Proof.
  unfold devices_to_toggle.
  enough (Hgen : forall acc,
             fold_left
               (fun acc device =>
                  fold_left
                    (fun acc sub_string =>
                       if contains (strip sub_string) (Device.name device)
                       then (acc ++ [device])%list else acc)
                    user_devices acc)
               devices acc
             = (acc ++ flat_map
                         (fun device =>
                            map (fun _ => device)
                                (matching_fragments user_devices (Device.name device)))
                         devices)%list)
    by apply (Hgen []).
  induction devices as [|d ds IH]; intros acc; cbn [fold_left flat_map].
  - now rewrite app_nil_r.
  - now rewrite inner_loop, IH, <- app_assoc.
Qed.

Lemma count_occ_copies (d x : Device.t) (fs : list string) :
  count_occ Device_eq_dec (map (fun _ => x) fs) d
  = if Device_eq_dec x d then List.length fs else O.
Proof.
  induction fs as [|f fs IH]; cbn [map count_occ List.length].
  - now destruct (Device_eq_dec x d).
  - rewrite IH. now destruct (Device_eq_dec x d).
Qed.

Lemma selected_iff (user_devices : list string) (devices : list Device.t)
      (d : Device.t) :
  In d (devices_to_toggle user_devices devices) <->
  In d devices /\
  exists sub_string,
    In sub_string user_devices /\
    contains (strip sub_string) (Device.name d) = true.
Proof.
  rewrite devices_to_toggle_flat_map, in_flat_map. unfold matching_fragments.
  split.
  - intros (x & Hx & Hd). apply in_map_iff in Hd as (f & <- & Hf).
    apply filter_In in Hf as [Hf Hc]. eauto.
  - intros (Hd & f & Hf & Hc). exists d. split; [exact Hd|].
    apply in_map_iff. exists f. split; [reflexivity|].
    apply filter_In. now split.
Qed.

Lemma lower_char_comma (c : ascii) :
  Ascii.eqb (lower_char c) "," = Ascii.eqb c ",".
Proof.
  destruct c as [[] [] [] [] [] [] [] []]; reflexivity.
Qed.

Lemma split_lower (s : string) :
  split "," (lower s) = map lower (split "," s).
Proof.
  induction s as [|c r IH]; cbn [lower split map]; [reflexivity|].
  rewrite lower_char_comma, IH.
  destruct (Ascii.eqb c ","); [reflexivity|].
  pose proof (split_not_nil "," r) as Hnn.
  destruct (split "," r); [contradiction|reflexivity].
Qed.

Lemma split_app_pieces (sep : ascii) (s t : string) :
  exists p ps, split sep (s ++ String sep t) = ((p :: ps) ++ split sep t)%list.
Proof.
  induction s as [|c r (p & ps & IH)]; cbn [append split].
  - rewrite Ascii.eqb_refl. now exists EmptyString, [].
  - rewrite IH. destruct (Ascii.eqb c sep).
    + now exists EmptyString, (p :: ps).
    + now exists (String c p), ps.
Qed.

Lemma split_trailing_sep (sep : ascii) (s : string) :
  In EmptyString (split sep (s ++ String sep EmptyString)).
Proof.
  destruct (split_app_pieces sep s EmptyString) as (p & ps & ->).
  apply in_or_app. right. now left.
Qed.

End Matcher.

(** ** Claims about the substring matcher *)

(** C2 (as amended): the matcher does not remove duplicates.  A device
    appears in [devices_to_toggle] once for every fragment that, stripped,
    occurs in its name (and that for each time it is listed); for entities
    named csr1, csr2, vmx1 and the fragments csr1, csr the result holds csr1
    exactly twice. *)
Theorem C2_once_per_matching_fragment :
  (forall (user_devices : list string) (devices : list Device.t) (d : Device.t),
      count_occ Device_eq_dec (devices_to_toggle user_devices devices) d
      = (count_occ Device_eq_dec devices d
         * List.length (matching_fragments user_devices (Device.name d)))%nat)
  /\ map Device.name
         (devices_to_toggle (user_devices_of "csr1,csr")
            [sample_device 1 "csr1"; sample_device 2 "csr2"; sample_device 3 "vmx1"])
     = ["csr1"; "csr1"; "csr2"].
Proof.
  split; [|reflexivity].
  intros user_devices devices d. rewrite devices_to_toggle_flat_map.
  induction devices as [|x xs IH]; cbn [flat_map count_occ]; [reflexivity|].
  rewrite count_occ_app, IH, count_occ_copies.
  destruct (Device_eq_dec x d) as [->|_]; lia.
Qed.

(** C2 fails on its own example: csr1 is appended once for the fragment
    csr1 and once more for the fragment csr. *)
Lemma C2_matched_twice :
  count_occ Device_eq_dec
    (devices_to_toggle ["csr1"; "csr"]
       [sample_device 1 "csr1"; sample_device 2 "csr2"; sample_device 3 "vmx1"])
    (sample_device 1 "csr1")
  = 2%nat.
Proof. reflexivity. Qed.

(** C7 (as amended): only the operator's line is lowered, and every
    fragment is stripped of the whitespace around it.  For an entity whose
    name has no upper-case letter, the entity is selected if and only if its
    name contains the lowered, stripped form of some fragment of the line,
    whatever the letter case of the operator's input. *)
Theorem C7_lowered_fragment_match (line : string) (devices : list Device.t)
        (d : Device.t) :
  PyStr.lower (Device.name d) = Device.name d ->
  In d (devices_to_toggle (user_devices_of line) devices) <->
  In d devices /\
  exists fragment,
    In fragment (PyStr.split "," line) /\
    PyStr.contains (PyStr.strip (PyStr.lower fragment))
                   (PyStr.lower (Device.name d)) = true.
Proof.
  intros Hname. rewrite Hname, selected_iff. unfold user_devices_of.
  rewrite split_lower. split; intros (Hd & f & Hf & Hc); (split; [exact Hd|]).
  - apply in_map_iff in Hf as (g & <- & Hg). eauto.
  - exists (PyStr.lower f). split; [now apply in_map|exact Hc].
Qed.

Lemma C7_lowered_fragment_match_witness :
  In (sample_device 1 "csr1")
     (devices_to_toggle (user_devices_of "VMX, CSR")
        [sample_device 1 "csr1"; sample_device 2 "eos1"]).
Proof.
  apply (C7_lowered_fragment_match "VMX, CSR"
           [sample_device 1 "csr1"; sample_device 2 "eos1"] (sample_device 1 "csr1")).
  - reflexivity.
  - split; [now left|]. exists " CSR". split; [right; now left|reflexivity].
Defined.

(** C7 fails on both sides: a name with upper-case letters is compared as
    it is stored, so the fragment csr does not select CSR1 although the
    lowered name contains it; and a fragment is stripped, so the fragment
    " csr" selects csr1 although the name does not contain it. *)
Lemma C7_name_not_lowered :
  (PyStr.contains (PyStr.lower "csr") (PyStr.lower "CSR1") = true /\
   devices_to_toggle (user_devices_of "csr") [sample_device 1 "CSR1"] = [])
  /\ (PyStr.split "," "vmx, csr" = ["vmx"; " csr"] /\
      PyStr.contains (PyStr.lower "vmx") (PyStr.lower "csr1") = false /\
      PyStr.contains (PyStr.lower " csr") (PyStr.lower "csr1") = false /\
      devices_to_toggle (user_devices_of "vmx, csr") [sample_device 1 "csr1"]
      = [sample_device 1 "csr1"]).
Proof. repeat split. Qed.

(** C10: the fragment line is split on commas and empty pieces are kept;
    the empty fragment occurs in every name.  So after a blank line, or a
    line that ends with a comma, every device of the emulation at hand is in
    [devices_to_toggle]. *)
Theorem C10_blank_fragment_selects_all (line : string) (devices : list Device.t)
        (d : Device.t) :
  line = EmptyString \/ (exists s, line = s ++ ",") ->
  In d devices ->
  In EmptyString (user_devices_of line) /\
  In d (devices_to_toggle (user_devices_of line) devices).
Proof.
  intros Hline Hd.
  assert (Hblank : In EmptyString (user_devices_of line)).
  { unfold user_devices_of. destruct Hline as [->|[s ->]]; [now left|].
    rewrite PyStrFacts.lower_app. apply split_trailing_sep. }
  split; [exact Hblank|]. apply selected_iff. split; [exact Hd|].
  exists EmptyString. split; [exact Hblank|]. apply PyStrFacts.contains_empty.
Qed.

Lemma C10_blank_fragment_selects_all_witness :
  In EmptyString (user_devices_of "csr,") /\
  In (sample_device 3 "vmx1")
     (devices_to_toggle (user_devices_of "csr,")
        [sample_device 1 "csr1"; sample_device 3 "vmx1"]).
Proof.
  apply (C10_blank_fragment_selects_all "csr,"
           [sample_device 1 "csr1"; sample_device 3 "vmx1"] (sample_device 3 "vmx1")).
  - right. now exists "csr".
  - right. now left.
Defined.

(** ** Batch dispatch *)

Section Dispatch.
Context {R : Type} `{Tesuto R} {A : Type}.
Variable request : A -> event.
Variable serve : A -> R -> response unit * R.
Variables success failure : A -> string.

Lemma put_body_run (x : A) (w : world R) :
  put_body request serve success failure x w
  = let '(answer, r) := serve x (remote w) in
    let w1 := Build_world (stdin w) (trace w ++ [request x]) r in
    let code := status_code answer in
    if code =? 401 then (Raise (Exception_ "Invalid API token"), w1)
    else if code =? 404 then (Raise (Exception_ "Object not found"), w1)
    else if code =? 200 then (Ok false, emit [Print (success x)] w1)
    else (Ok true, emit [Print (failure x)] w1).
Proof.
  unfold put_body, bind, call, _dispatch.
  destruct (serve x (remote w)) as [answer r].
  cbv zeta. destruct (status_code answer =? 401); [reflexivity|].
  destruct (status_code answer =? 404); [reflexivity|].
  cbn. destruct (status_code answer =? 200); reflexivity.
Qed.

(** The batch up to and with its first failing target. *)
Lemma batch_run (before after : list A) (target : A) (code : Z) :
  forall (w : world R) (r' : R),
    put_codes serve (before ++ [target]) (remote w)
    = ((repeat 200 (List.length before) ++ [code])%list, r') ->
    code <> 200 ->
    for_break (before ++ target :: after)
              (put_body request serve success failure) w
    = (failure_outcome code,
       Build_world (stdin w)
         (trace w ++ applied request success before
                  ++ request target :: failure_notice failure code target)
         r').
Proof.
  induction before as [|x before IH]; intros w r' Hcodes Hcode;
    cbn [app for_break put_codes List.length repeat] in *; unfold bind;
    rewrite put_body_run.
  - destruct (serve target (remote w)) as [answer r].
    injection Hcodes as -> ->. cbv zeta.
    unfold failure_outcome, failure_notice, applied. cbn [flat_map app].
    destruct (code =? 401); [reflexivity|].
    destruct (code =? 404); [reflexivity|].
    destruct (Z.eqb_spec code 200); [contradiction|].
    unfold ret, emit. cbn [stdin trace remote orb]. now rewrite <- app_assoc.
  - destruct (serve x (remote w)) as [answer r].
    destruct (put_codes serve (before ++ [target]) r) as [codes r2] eqn:Hrest.
    injection Hcodes as Hx -> ->. cbv zeta. rewrite Hx.
    change (200 =? 401) with false. change (200 =? 404) with false.
    change (200 =? 200) with true. cbv iota.
    rewrite (IH (emit [Print (success x)]
                      (Build_world (stdin w) (trace w ++ [request x]) r)) r' Hrest Hcode).
    cbn [emit stdin trace remote applied flat_map app].
    now rewrite <- !app_assoc.
Qed.

End Dispatch.


Section Toggles.
Context {R : Type} `{Tesuto R}.
Variable expiry_after : Z -> Z.

Lemma toggle_devices_loop (devices : list Device.t) (is_enabled prompt : bool) :
  toggle_devices devices is_enabled prompt
  = (for_break devices
       (put_body (device_request is_enabled) (serve_device is_enabled)
                 (device_success is_enabled) device_failure) ;;
     if prompt then (input "Press [enter] to continue..." ;; ret tt) else ret tt).
Proof. reflexivity. Qed.

Lemma toggle_emulations_loop (emulations : list Emulation.t) (status : string)
      (timer : bool) :
  toggle_emulations expiry_after emulations status timer
  = (end_time <- ask_end_time expiry_after status timer ;;
     let data := {| action := status; end_at := end_time |} in
     for_break emulations
       (put_body (emulation_request data) (serve_emulation data)
                 (emulation_success status end_time) (emulation_failure status)) ;;
     input "Press [enter] to continue..." ;;
     ret tt).
Proof. reflexivity. Qed.

Lemma press_enter_trace (w : world R) :
  trace (snd ((input "Press [enter] to continue..." ;; ret tt) w))
  = (trace w ++ [Prompt "Press [enter] to continue..."])%list.
Proof. unfold bind, input, ret. now destruct (stdin w). Qed.

Lemma press_enter_returns (w : world R) :
  stdin w <> [] ->
  fst ((input "Press [enter] to continue..." ;; ret tt) w) = Ok tt.
Proof. unfold bind, input, ret. now destruct (stdin w). Qed.

(** What [toggle_devices] does with a batch whose first failing target
    is [target]. *)
Lemma toggle_devices_run (before after : list Device.t) (target : Device.t)
      (is_enabled prompt : bool) (code : Z) (w : world R) (r' : R) :
  put_codes (serve_device is_enabled) (before ++ [target]) (remote w)
  = ((repeat 200 (List.length before) ++ [code])%list, r') ->
  code <> 200 ->
  toggle_devices (before ++ target :: after) is_enabled prompt w
  = let w2 :=
      Build_world (stdin w)
        (trace w ++ applied (device_request is_enabled) (device_success is_enabled) before
                 ++ device_request is_enabled target
                 :: failure_notice device_failure code target)
        r' in
    match failure_outcome code with
    | Raise e => (Raise e, w2)
    | Ok _ =>
        if prompt then (input "Press [enter] to continue..." ;; ret tt) w2
        else (Ok tt, w2)
    end.
Proof.
  intros Hcodes Hcode. rewrite toggle_devices_loop. unfold bind at 1.
  rewrite (batch_run _ _ _ _ before after target code w r' Hcodes Hcode).
  cbv zeta. destruct (failure_outcome code) as [[]|e]; [|reflexivity].
  now destruct prompt.
Qed.

(** The same for [toggle_emulations], once the expiry is known. *)
Lemma toggle_emulations_run (before after : list Emulation.t) (target : Emulation.t)
      (status : string) (timer : bool) (end_time : option Z) (code : Z)
      (w w1 : world R) (r' : R) :
  let data := {| action := status; end_at := end_time |} in
  ask_end_time expiry_after status timer w = (Ok end_time, w1) ->
  put_codes (serve_emulation data) (before ++ [target]) (remote w1)
  = ((repeat 200 (List.length before) ++ [code])%list, r') ->
  code <> 200 ->
  toggle_emulations expiry_after (before ++ target :: after) status timer w
  = let w2 :=
      Build_world (stdin w1)
        (trace w1 ++ applied (emulation_request data)
                             (emulation_success status end_time) before
                  ++ emulation_request data target
                  :: failure_notice (emulation_failure status) code target)
        r' in
    match failure_outcome code with
    | Raise e => (Raise e, w2)
    | Ok _ => (input "Press [enter] to continue..." ;; ret tt) w2
    end.
Proof.
  intros data Hask Hcodes Hcode. rewrite toggle_emulations_loop.
  unfold bind at 1. rewrite Hask. fold data. cbv zeta. unfold bind at 1.
  rewrite (batch_run _ _ _ _ before after target code w1 r' Hcodes Hcode).
  now destruct (failure_outcome code) as [[]|e].
Qed.

End Toggles.

(** ** Claims about batch dispatch *)

(** C1 (as amended): when the apply call is answered with 200 for the
    targets before the k-th and with a status other than 200, 401 and 404
    for the k-th, the dispatcher makes exactly one apply call followed by one
    success notice for each earlier target, one apply call followed by one
    failure notice for the k-th, and no apply call for the later ones; all
    that follows is the prompt that ends the dispatch. *)
Theorem C1_fail_fast :
  (forall (R : Type) (T : Tesuto R) (before after : list Device.t) (target : Device.t)
          (is_enabled prompt : bool) (code : Z) (w : world R),
      fst (put_codes (serve_device is_enabled) (before ++ [target]) (remote w))
      = (repeat 200 (List.length before) ++ [code])%list ->
      code <> 200 -> code <> 401 -> code <> 404 ->
      trace (snd (toggle_devices (before ++ target :: after) is_enabled prompt w))
      = (trace w
         ++ applied (device_request is_enabled) (device_success is_enabled) before
         ++ [device_request is_enabled target; Print (device_failure target)]
         ++ (if prompt then [Prompt "Press [enter] to continue..."] else []))%list)
  /\
  (forall (R : Type) (T : Tesuto R) (expiry_after : Z -> Z)
          (before after : list Emulation.t) (target : Emulation.t)
          (status : string) (timer : bool) (end_time : option Z) (code : Z)
          (w w1 : world R),
      let data := {| action := status; end_at := end_time |} in
      ask_end_time expiry_after status timer w = (Ok end_time, w1) ->
      fst (put_codes (serve_emulation data) (before ++ [target]) (remote w1))
      = (repeat 200 (List.length before) ++ [code])%list ->
      code <> 200 -> code <> 401 -> code <> 404 ->
      trace (snd (toggle_emulations expiry_after (before ++ target :: after)
                                    status timer w))
      = (trace w1
         ++ applied (emulation_request data) (emulation_success status end_time) before
         ++ [emulation_request data target; Print (emulation_failure status target)]
         ++ [Prompt "Press [enter] to continue..."])%list).
Proof.
  assert (Hout : forall code, code <> 401 -> code <> 404 -> failure_outcome code = Ok tt).
  { intros code H401 H404. unfold failure_outcome.
    destruct (Z.eqb_spec code 401); [contradiction|].
    now destruct (Z.eqb_spec code 404). }
  assert (Hnote : forall A (failure : A -> string) code x,
             code <> 401 -> code <> 404 ->
             failure_notice failure code x = [Print (failure x)]).
  { intros A failure code x H401 H404. unfold failure_notice.
    destruct (Z.eqb_spec code 401); [contradiction|].
    now destruct (Z.eqb_spec code 404). }
  split.
  - intros R T before after target is_enabled prompt code w Hcodes H200 H401 H404.
    destruct (put_codes _ _ _) as [codes r'] eqn:Hput. cbn [fst] in Hcodes. subst codes.
    rewrite (toggle_devices_run before after target is_enabled prompt code w r' Hput H200).
    cbv zeta. rewrite Hout, Hnote by assumption.
    destruct prompt; [rewrite press_enter_trace|]; cbn [snd trace];
      now rewrite <- ?app_assoc, ?app_nil_r.
  - intros R T expiry_after before after target status timer end_time code w w1 data
           Hask Hcodes H200 H401 H404.
    destruct (put_codes _ _ _) as [codes r'] eqn:Hput. cbn [fst] in Hcodes. subst codes.
    rewrite (toggle_emulations_run expiry_after before after target status timer
               end_time code w w1 r' Hask Hput H200).
    cbv zeta. rewrite Hout, Hnote by assumption.
    rewrite press_enter_trace. cbn [snd trace]. now rewrite <- ?app_assoc.
Qed.

Lemma C1_fail_fast_witness :
  let d1 := sample_device 1 "csr1" in
  let d2 := sample_device 2 "csr2" in
  let d3 := sample_device 3 "vmx1" in
  let e1 := sample_emulation 1 "lab-a" in
  let e2 := sample_emulation 2 "lab-b" in
  let data := {| action := "stop"; end_at := None |} in
  trace (snd (toggle_devices [d1; d2; d3] true true
                (sample_world [200; 500] ["go"])))
  = [ApiDevicePut 1 1 true; Print "Enabled device csr1";
     ApiDevicePut 2 1 true; Print "Failed to toggle status for device csr2";
     Prompt "Press [enter] to continue..."]
  /\
  trace (snd (toggle_emulations sample_expiry [e1; e2] "stop" false
                (sample_world [503] ["go"])))
  = [ApiEmulationPut 1 data;
     Print "Failed to change status to 'stop' for emulation lab-a";
     Prompt "Press [enter] to continue..."].
Proof.
  intros d1 d2 d3 e1 e2 data.
  destruct C1_fail_fast as [Hdevices Hemulations]. split.
  - apply (Hdevices script scripted [d1] [d3] d2 true true 500
             (sample_world [200; 500] ["go"])); [reflexivity|lia..].
  - apply (Hemulations script scripted sample_expiry [] [e2] e1 "stop" false None 503
             (sample_world [503] ["go"]) (sample_world [503] ["go"]));
      [reflexivity|reflexivity|lia..].
Defined.

(** C1 fails for the statuses [_dispatch] refuses: when the service
    answers 404 for the failing target, the apply call is made and no failure
    notice follows. *)
Lemma C1_not_found_no_notice :
  toggle_devices [sample_device 1 "csr1"; sample_device 2 "csr2"] true true
    (sample_world [404] ["go"])
  = (Raise (Exception_ "Object not found"),
     Build_world ["go"] [ApiDevicePut 1 1 true]
       {| answers := []; listed_emulations := []; listed_devices := [] |}).
Proof. reflexivity. Qed.

(** C3 (as amended): a failing answer ends the batch at its target.  With
    401 or 404, [_dispatch] raises ("Invalid API token", "Object not found"):
    no failure notice is printed, nothing more is done and the exception
    leaves the dispatcher.  With any other status that is not 200, the
    failure notice of the target is printed, the closing prompt is shown and,
    once the operator answers it, the dispatcher returns to its caller.
    [main] handles [KeyboardInterrupt] only: an [Exception] that reaches it
    ends the process with a traceback. *)
Theorem C3_remote_failure
        (R : Type) (T : Tesuto R) (expiry_after : Z -> Z)
        (fromtimestamp : Z -> result Z)
        (show : ConsoleMenu R -> M R unit)
        (before after : list Emulation.t) (target : Emulation.t)
        (status : string) (timer : bool) (end_time : option Z) (code : Z)
        (w w1 : world R) (r' : R) :
  let data := {| action := status; end_at := end_time |} in
  let run := toggle_emulations expiry_after (before ++ target :: after) status timer w in
  let halted :=
    Build_world (stdin w1)
      (trace w1 ++ applied (emulation_request data) (emulation_success status end_time)
                          before
                ++ [emulation_request data target])
      r' in
  ask_end_time expiry_after status timer w = (Ok end_time, w1) ->
  put_codes (serve_emulation data) (before ++ [target]) (remote w1)
  = ((repeat 200 (List.length before) ++ [code])%list, r') ->
  code <> 200 ->
  (code = 401 -> run = (Raise (Exception_ "Invalid API token"), halted))
  /\ (code = 404 -> run = (Raise (Exception_ "Object not found"), halted))
  /\ (code <> 401 -> code <> 404 ->
      trace (snd run)
      = (trace halted ++ [Print (emulation_failure status target);
                          Prompt "Press [enter] to continue..."])%list
      /\ remote (snd run) = r'
      /\ (stdin w1 <> [] -> fst run = Ok tt))
  /\ (forall fuel w0 w0' msg,
         select_emulations expiry_after fromtimestamp show fuel w0
         = (Raise (Exception_ msg), w0') ->
         main_try expiry_after fromtimestamp show fuel w0 = (Traceback (Exception_ msg), w0')).
Proof.
  intros data run halted Hask Hcodes H200.
  pose proof (toggle_emulations_run expiry_after before after target status timer
                end_time code w w1 r' Hask Hcodes H200) as Hrun.
  fold data run in Hrun. cbv zeta in Hrun.
  repeat split.
  - intros ->. exact Hrun.
  - intros ->. exact Hrun.
  - rewrite Hrun. unfold failure_outcome, failure_notice.
    destruct (Z.eqb_spec code 401); [contradiction|].
    destruct (Z.eqb_spec code 404); [contradiction|].
    rewrite press_enter_trace. unfold halted. cbn [trace orb].
    now rewrite <- !app_assoc.
  - rewrite Hrun. unfold failure_outcome.
    destruct (Z.eqb_spec code 401); [contradiction|].
    destruct (Z.eqb_spec code 404); [contradiction|].
    unfold bind, input, ret. cbn [stdin]. now destruct (stdin w1).
  - intros Hin. rewrite Hrun. unfold failure_outcome.
    destruct (Z.eqb_spec code 401); [contradiction|].
    destruct (Z.eqb_spec code 404); [contradiction|].
    now apply press_enter_returns.
  - intros fuel w0 w0' msg Hsel. unfold main_try. now rewrite Hsel.
Qed.

Lemma C3_remote_failure_witness :
  toggle_emulations sample_expiry
    [sample_emulation 1 "lab-a"; sample_emulation 2 "lab-b"; sample_emulation 3 "lab-c"]
    "start" false (sample_world [200; 401] ["go"])
  = (Raise (Exception_ "Invalid API token"),
     Build_world ["go"]
       [ApiEmulationPut 1 {| action := "start"; end_at := None |};
        Print "Set emulation lab-a to start";
        ApiEmulationPut 2 {| action := "start"; end_at := None |}]
       {| answers := []; listed_emulations := []; listed_devices := [] |}).
Proof.
  apply (C3_remote_failure script scripted sample_expiry sample_fromtimestamp
           first_item
           [sample_emulation 1 "lab-a"] [sample_emulation 3 "lab-c"]
           (sample_emulation 2 "lab-b") "start" false None 401
           (sample_world [200; 401] ["go"]) (sample_world [200; 401] ["go"])
           {| answers := []; listed_emulations := []; listed_devices := [] |});
    [reflexivity|reflexivity|lia|reflexivity].
Defined.

(** C3 fails for 401: the dispatcher prints no failure notice for the
    emulation, and the run ends with the exception instead of a return. *)
Lemma C3_invalid_token_raises :
  toggle_emulations sample_expiry [sample_emulation 1 "lab-a"] "stop" false
    (sample_world [401] ["go"])
  = (Raise (Exception_ "Invalid API token"),
     Build_world ["go"] [ApiEmulationPut 1 {| action := "stop"; end_at := None |}]
       {| answers := []; listed_emulations := []; listed_devices := [] |}).
Proof. reflexivity. Qed.

(** ** The prompt for the hours *)

Lemma ask_hours_not_numeric (expiry_after : Z -> Z) (line : string)
      (rest : list string) (tr : list event) :
  PyStr.int line = None ->
  ask_hours expiry_after (line :: rest) tr
  = (Raise ValueError, rest, (tr ++ [Prompt "Hours to run (1-24): "])%list).
Proof. intros Hint. cbn [ask_hours]. now rewrite Hint. Qed.



(** C6 at the input abc: [int] raises [ValueError], which nothing catches.
    No message is printed, the prompt is not shown again although a valid
    answer is waiting, and the dispatch is left without any apply call. *)
Theorem C6_non_numeric_hours_raise :
  toggle_emulations sample_expiry [sample_emulation 1 "lab-a"] "start" true
    (sample_world [] ["abc"; "5"; "go"])
  = (Raise ValueError,
     Build_world ["5"; "go"] [Prompt "Hours to run (1-24): "]
       {| answers := []; listed_emulations := []; listed_devices := [] |}).
Proof. reflexivity. Qed.

(** ** Sorting by name *)

Section Sorting.

Lemma ltb_leb (s t : string) : String.ltb s t = true -> String.leb s t = true.
Proof. unfold String.ltb, String.leb. now destruct (String.compare s t). Qed.

Lemma not_ltb_leb (s t : string) : String.ltb s t = false -> String.leb t s = true.
Proof.
  unfold String.ltb, String.leb. rewrite (String.compare_antisym t s).
  now destruct (String.compare s t).
Qed.

Lemma insert_by_name_hd (x y : Emulation.t) (l : list Emulation.t) :
  name_le y x -> HdRel name_le y l -> HdRel name_le y (insert_by_name x l).
Proof.
  intros Hyx Hl. destruct l as [|z r]; cbn [insert_by_name].
  - now constructor.
  - destruct (String.ltb (Emulation.name z) (Emulation.name x));
      constructor; [now inversion Hl|exact Hyx].
Qed.

Lemma insert_by_name_sorted (x : Emulation.t) (l : list Emulation.t) :
  Sorted name_le l -> Sorted name_le (insert_by_name x l).
Proof.
  induction 1 as [|y r Hr IH Hy]; cbn [insert_by_name].
  - repeat constructor.
  - destruct (String.ltb (Emulation.name y) (Emulation.name x)) eqn:Hlt.
    + constructor; [exact IH|].
      apply insert_by_name_hd; [now apply ltb_leb|exact Hy].
    + constructor; [now constructor|].
      constructor. now apply not_ltb_leb.
Qed.

Lemma sort_by_name_sorted (l : list Emulation.t) : Sorted name_le (sort_by_name l).
Proof.
  induction l as [|x r IH]; cbn [sort_by_name]; [constructor|].
  now apply insert_by_name_sorted.
Qed.

Lemma insert_by_name_perm (x : Emulation.t) (l : list Emulation.t) :
  Permutation (x :: l) (insert_by_name x l).
Proof.
  induction l as [|y r IH]; cbn [insert_by_name]; [reflexivity|].
  destruct (String.ltb (Emulation.name y) (Emulation.name x)); [|reflexivity].
  rewrite perm_swap. now constructor.
Qed.

Lemma sort_by_name_perm (l : list Emulation.t) : Permutation l (sort_by_name l).
Proof.
  induction l as [|x r IH]; cbn [sort_by_name]; [constructor|].
  rewrite <- insert_by_name_perm. now constructor.
Qed.

Lemma ascii_compare_refl (a : ascii) : Ascii.compare a a = Eq.
Proof. unfold Ascii.compare. apply N.compare_refl. Qed.

Lemma ascii_compare_lt_trans (a b c : ascii) :
  Ascii.compare a b = Lt -> Ascii.compare b c = Lt -> Ascii.compare a c = Lt.
Proof. unfold Ascii.compare. rewrite !N.compare_lt_iff. apply N.lt_trans. Qed.

Lemma compare_lt_trans (s : string) :
  forall t u,
    String.compare s t = Lt -> String.compare t u = Lt -> String.compare s u = Lt.
Proof.
  induction s as [|a s IH]; intros [|b t] [|c u]; cbn [String.compare];
    try discriminate; try reflexivity.
  destruct (Ascii.compare a b) eqn:Hab, (Ascii.compare b c) eqn:Hbc;
    try discriminate.
  - apply Ascii.compare_eq_iff in Hab, Hbc. subst.
    rewrite ascii_compare_refl. apply IH.
  - apply Ascii.compare_eq_iff in Hab. subst. now rewrite Hbc.
  - apply Ascii.compare_eq_iff in Hbc. subst. now rewrite Hab.
  - now rewrite (ascii_compare_lt_trans a b c).
Qed.

Lemma name_le_trans (x y z : Emulation.t) : name_le x y -> name_le y z -> name_le x z.
Proof.
  unfold name_le, String.leb. intros Hxy Hyz.
  destruct (String.compare (Emulation.name x) (Emulation.name y)) eqn:Cxy;
    [|clear Hxy|discriminate].
  - apply String.compare_eq_iff in Cxy. now rewrite Cxy.
  - destruct (String.compare (Emulation.name y) (Emulation.name z)) eqn:Cyz;
      [|clear Hyz|discriminate].
    + apply String.compare_eq_iff in Cyz. now rewrite <- Cyz, Cxy.
    + now rewrite (compare_lt_trans _ _ _ Cxy Cyz).
Qed.

(** With a transitive order, sorted means that every element is below
    all the later ones. *)
Lemma sorted_strongly (l : list Emulation.t) :
  Sorted name_le l -> StronglySorted name_le l.
Proof. apply Sorted_StronglySorted. exact name_le_trans. Qed.

End Sorting.

(** ** The ending time *)

Section EndingTime.
Variable fromtimestamp : Z -> result Z.

Lemma timed_name (e e' : Emulation.t) :
  timed fromtimestamp e e' -> Emulation.name e' = Emulation.name e.
Proof.
  unfold timed, with_ending_time. intros He.
  destruct (Emulation.end_at e) as [t|]; [|now injection He as <-].
  destruct (t =? 0); [now injection He as <-|].
  destruct (fromtimestamp t); [now injection He as <-|discriminate].
Qed.

Lemma add_ending_times_timed (l l' : list Emulation.t) :
  add_ending_times fromtimestamp l = Ok l' <-> Forall2 (timed fromtimestamp) l l'.
Proof.
  revert l'. induction l as [|e rest IH]; intros l'; cbn [add_ending_times].
  - split; [intros [= <-]; constructor|now inversion 1].
  - split.
    + destruct (with_ending_time fromtimestamp e) as [e'|] eqn:He; [|discriminate].
      destruct (add_ending_times fromtimestamp rest) as [rest'|]; [|discriminate].
      intros [= <-]. constructor; [exact He|now apply IH].
    + inversion 1 as [|? e' ? rest' He Hrest]; subst.
      unfold timed in He. rewrite He.
      apply IH in Hrest. now rewrite Hrest.
Qed.

Lemma timed_names (l l' : list Emulation.t) :
  Forall2 (timed fromtimestamp) l l' -> map Emulation.name l' = map Emulation.name l.
Proof.
  induction 1 as [|e e' l l' He _ IH]; cbn [map]; [reflexivity|].
  now rewrite (timed_name e e' He), IH.
Qed.

Lemma timed_hd (x x' : Emulation.t) (l l' : list Emulation.t) :
  timed fromtimestamp x x' -> Forall2 (timed fromtimestamp) l l' ->
  HdRel name_le x l -> HdRel name_le x' l'.
Proof.
  intros Hx Hl Hhd. destruct Hl as [|y y' l l' Hy _]; constructor.
  inversion Hhd as [|? ? Hle]; subst. unfold name_le in *.
  now rewrite (timed_name x x' Hx), (timed_name y y' Hy).
Qed.

Lemma timed_sorted (l l' : list Emulation.t) :
  Forall2 (timed fromtimestamp) l l' -> Sorted name_le l -> Sorted name_le l'.
Proof.
  induction 1 as [|e e' l l' He Hl IH]; intros Hs; [constructor|].
  inversion Hs as [|? ? Hrest Hhd]; subst.
  constructor; [now apply IH|]. now apply (timed_hd e e' l l').
Qed.

(** The loop returns when every emulation converts. *)
Lemma add_ending_times_ok (l : list Emulation.t) :
  Forall (converts fromtimestamp) l ->
  exists l', add_ending_times fromtimestamp l = Ok l'.
Proof.
  induction 1 as [|e rest [e' He] _ [rest' IH]]; cbn [add_ending_times].
  - now exists [].
  - unfold timed in He. rewrite He, IH. now exists (e' :: rest').
Qed.

(** The loop raises what the conversion raises. *)
Lemma with_ending_time_raise (e : Emulation.t) (x : exn) :
  with_ending_time fromtimestamp e = Raise x ->
  exists t, Emulation.end_at e = Some t /\ t <> 0 /\ fromtimestamp t = Raise x.
Proof.
  unfold with_ending_time.
  destruct (Emulation.end_at e) as [t|]; [|discriminate].
  destruct (Z.eqb_spec t 0); [discriminate|].
  destruct (fromtimestamp t) eqn:Ht; [discriminate|].
  intros [= <-]. now exists t.
Qed.

Lemma add_ending_times_raise (l : list Emulation.t) (x : exn) :
  add_ending_times fromtimestamp l = Raise x ->
  exists t, fromtimestamp t = Raise x.
Proof.
  induction l as [|e rest IH]; cbn [add_ending_times]; [discriminate|].
  destruct (with_ending_time fromtimestamp e) eqn:He.
  - destruct (add_ending_times fromtimestamp rest); [discriminate|].
    intros [= <-]. now apply IH.
  - intros [= <-]. destruct (with_ending_time_raise e e0 He) as (t & _ & _ & Ht).
    now exists t.
Qed.

End EndingTime.

(** ** What the program displays *)

Section Emits.
Context {R : Type}.
Variable P : event -> Prop.
Hypothesis plain_P : forall ev, plain ev -> P ev.

Lemma emits_with_weaken {A} (Q Q' : A -> Prop) (m : M R A) :
  (forall a, Q a -> Q' a) -> emits_with P Q m -> emits_with P Q' m.
Proof.
  intros HQ Hm w. destruct (Hm w) as (evs & Ht & Hevs & Hq).
  exists evs. auto.
Qed.

Lemma emits_ret {A} (Q : A -> Prop) (a : A) : Q a -> emits_with P Q (ret (R := R) a).
Proof.
  intros Ha w. exists []. cbn. rewrite app_nil_r.
  repeat split; [constructor|]. now intros ? [= <-].
Qed.

Lemma emits_raise {A} (Q : A -> Prop) (e : exn) : emits_with P Q (raise (R := R) e).
Proof.
  intros w. exists []. cbn. rewrite app_nil_r.
  repeat split; [constructor|discriminate].
Qed.

Lemma emits_lift {A} (Q : A -> Prop) (r : result A) :
  (forall a, r = Ok a -> Q a) -> emits_with P Q (lift (R := R) r).
Proof.
  intros Hr w. exists []. cbn. rewrite app_nil_r.
  repeat split; [constructor|exact Hr].
Qed.

Lemma emits_bind {A B} (Q : A -> Prop) (Q' : B -> Prop) (m : M R A) (k : A -> M R B) :
  emits_with P Q m -> (forall a, Q a -> emits_with P Q' (k a)) ->
  emits_with P Q' (bind m k).
Proof.
  intros Hm Hk w. unfold bind.
  destruct (Hm w) as (evs & Ht & Hevs & Hq).
  destruct (m w) as [[a|e] w1]; cbn [fst snd] in *.
  - destruct (Hk a (Hq a eq_refl) w1) as (evs' & Ht' & Hevs' & Hq').
    exists (evs ++ evs')%list. rewrite Ht', Ht, app_assoc.
    repeat split; [now apply Forall_app|exact Hq'].
  - exists evs. repeat split; [exact Ht|exact Hevs|discriminate].
Qed.

Lemma emits_print (s : string) : emits_with P (fun _ => True) (print (R := R) s).
Proof.
  intros w. exists [Print s]. repeat split. constructor; [|constructor].
  now apply plain_P.
Qed.

Lemma emits_input (s : string) : emits_with P (fun _ => True) (input (R := R) s).
Proof.
  intros w. exists [Prompt s]. unfold input.
  destruct (stdin w); repeat split; constructor; try constructor;
    now apply plain_P.
Qed.

Lemma emits_call {A} (request : event) (serve : R -> response A * R) :
  plain request -> emits_with P (fun _ => True) (call request serve).
Proof.
  intros Hreq w. exists [request]. unfold call.
  destruct (serve (remote w)). repeat split.
  constructor; [now apply plain_P|constructor].
Qed.

Lemma emits_for_break {A} (l : list A) (body : A -> M R bool) :
  (forall x, emits P (body x)) -> emits P (for_break l body).
Proof.
  intros Hbody. induction l as [|x rest IH]; cbn [for_break].
  - now apply emits_ret.
  - eapply emits_bind; [apply Hbody|]. intros [] _; [now apply emits_ret|exact IH].
Qed.

Lemma emits_for_each {A} (l : list A) (body : A -> M R unit) :
  (forall x, emits P (body x)) -> emits P (for_each l body).
Proof.
  intros Hbody. induction l as [|x rest IH]; cbn [for_each].
  - now apply emits_ret.
  - eapply emits_bind; [apply Hbody|]. intros _ _. exact IH.
Qed.

Lemma emits_dispatch {A} (r : response A) : emits P (_dispatch (R := R) r).
Proof.
  unfold _dispatch.
  destruct (status_code r =? 401); [apply emits_raise|].
  destruct (status_code r =? 404); [apply emits_raise|now apply emits_ret].
Qed.

End Emits.

Section ProgramEmits.
Context {R : Type} `{Tesuto R}.
Variable expiry_after : Z -> Z.
Variable fromtimestamp : Z -> result Z.
Variable show : ConsoleMenu R -> M R unit.
Variable P : event -> Prop.
Hypothesis plain_P : forall ev, plain ev -> P ev.
Hypothesis show_P :
  forall menu,
    Forall (fun item => emits P (function item)) (items menu) -> emits P (show menu).

Lemma ask_hours_emits (lines : list string) :
  forall tr, exists evs,
    snd (ask_hours expiry_after lines tr) = (tr ++ evs)%list /\ Forall P evs.
Proof.
  induction lines as [|line rest IH]; intros tr; cbn [ask_hours].
  - exists [Prompt "Hours to run (1-24): "]. split; [reflexivity|].
    repeat constructor. now apply plain_P.
  - destruct (PyStr.int line) as [hours|].
    + destruct (in_range 1 25 hours).
      * exists [Prompt "Hours to run (1-24): "]. split; [reflexivity|].
        repeat constructor. now apply plain_P.
      * destruct (IH ((tr ++ [Prompt "Hours to run (1-24): "])
                        ++ [Print ("Invalid choice: " ++ PyStr.of_int hours)])%list)
          as (evs & -> & Hevs).
        exists ([Prompt "Hours to run (1-24): ";
                 Print ("Invalid choice: " ++ PyStr.of_int hours)] ++ evs)%list.
        split; [now rewrite <- !app_assoc|].
        repeat constructor; try (now apply plain_P); exact Hevs.
    + exists [Prompt "Hours to run (1-24): "]. split; [reflexivity|].
      repeat constructor. now apply plain_P.
Qed.

Lemma prompt_hours_emits : emits P (prompt_hours expiry_after (R := R)).
Proof.
  intros w. unfold prompt_hours.
  destruct (ask_hours_emits (stdin w) (trace w)) as (evs & Ht & Hevs).
  destruct (ask_hours expiry_after (stdin w) (trace w)) as [[r lines] tr].
  cbn [snd] in Ht. subst tr. exists evs. now repeat split.
Qed.

Lemma put_body_emits {A} (request : A -> event) (serve : A -> R -> response unit * R)
      (success failure : A -> string) (x : A) :
  plain (request x) -> emits P (put_body request serve success failure x).
Proof.
  intros Hreq. unfold put_body.
  eapply emits_bind with (Q := fun _ => True).
  - eapply emits_bind; [now apply emits_call|].
    intros r _. now apply emits_dispatch.
  - intros r _. destruct (status_code r =? 200);
      (eapply emits_bind; [now apply emits_print|]);
      intros _ _; now apply emits_ret.
Qed.

Lemma toggle_devices_emits (devices : list Device.t) (is_enabled prompt : bool) :
  emits P (toggle_devices devices is_enabled prompt).
Proof.
  rewrite toggle_devices_loop. eapply emits_bind.
  - apply emits_for_break. intros d.
    now apply put_body_emits.
  - intros _ _. destruct prompt; [|now apply emits_ret].
    eapply emits_bind; [now apply emits_input|]. intros; now apply emits_ret.
Qed.

Lemma toggle_emulations_emits (emulations : list Emulation.t) (status : string)
      (timer : bool) :
  emits P (toggle_emulations expiry_after emulations status timer).
Proof.
  rewrite toggle_emulations_loop. eapply emits_bind with (Q := fun _ => True).
  - unfold ask_end_time. destruct ((status =? "start")%string && timer).
    + eapply emits_bind; [apply prompt_hours_emits|]. intros; now apply emits_ret.
    + now apply emits_ret.
  - intros end_time _. cbv zeta. eapply emits_bind.
    + apply emits_for_break. intros e. now apply put_body_emits.
    + intros _ _. eapply emits_bind; [now apply emits_input|].
      intros; now apply emits_ret.
Qed.

Lemma get_devices_emits (emulation_id : Z) : emits P (get_devices emulation_id).
Proof.
  unfold get_devices. eapply emits_bind with (Q := fun _ => True).
  - eapply emits_bind; [now apply emits_call|]. intros r _. now apply emits_dispatch.
  - intros; now apply emits_ret.
Qed.

Lemma loop_emits (choices : Z -> bool) (prompt : string) (lines : list string) :
  forall tr, exists evs,
    snd (get_user_selections_loop choices prompt lines tr) = (tr ++ evs)%list
    /\ Forall P evs.
Proof.
  induction lines as [|line rest IH]; intros tr; cbn [get_user_selections_loop].
  - exists [Prompt (prompt ++ ": "); Print nl].
    split; [now rewrite <- app_assoc|].
    repeat constructor; now apply plain_P.
  - assert (Hone : exists evs,
               (tr ++ [Prompt (prompt ++ ": ")])%list = (tr ++ evs)%list /\ Forall P evs).
    { eexists. split; [reflexivity|]. repeat constructor. now apply plain_P. }
    destruct (String.eqb line EmptyString); [exact Hone|].
    destruct (read_selections choices line) as [sel|e]; [exact Hone|].
    destruct e; try exact Hone.
    destruct (IH ((tr ++ [Prompt (prompt ++ ": ")])
                    ++ [Print ("Invalid choice: " ++ show_arg arg)])%list)
      as (evs & -> & Hevs).
    exists ([Prompt (prompt ++ ": "); Print ("Invalid choice: " ++ show_arg arg)]
              ++ evs)%list.
    split; [now rewrite <- !app_assoc|].
    repeat constructor; try (now apply plain_P); exact Hevs.
Qed.

Lemma get_user_selections_emits (choices : Z -> bool) (prompt : string) :
  emits P (get_user_selections (R := R) choices prompt).
Proof.
  unfold get_user_selections. eapply emits_bind; [now apply emits_print|].
  intros _ _ w.
  destruct (loop_emits choices prompt (stdin w) (trace w)) as (evs & Ht & Hevs).
  destruct (get_user_selections_loop choices prompt (stdin w) (trace w))
    as [[r lines] tr].
  cbn [snd] in Ht. subst tr. exists evs. now repeat split.
Qed.

Lemma manage_devices_emits (devices : list Device.t) :
  emits P (manage_devices show devices).
Proof.
  unfold manage_devices. apply show_P. cbn [items].
  repeat constructor; cbn [function]; apply toggle_devices_emits.
Qed.

Lemma print_table_emits {A} (headers : list (string * (A -> value))) (l : list A) :
  P (Table ("#" :: map fst headers) (table_rows headers l)) ->
  emits P (print_table (R := R) headers l).
Proof.
  intros Ht w. eexists. unfold print_table. cbn [snd emit trace].
  repeat split. now repeat constructor.
Qed.

Hypothesis device_table_P :
  forall l, P (Table ("#" :: map fst device_headers) (table_rows device_headers l)).

Lemma select_devices_emits (fuel : nat) (emulation_id : Z) :
  emits P (select_devices show fuel emulation_id).
Proof.
  induction fuel as [|fuel IH]; cbn [select_devices]; [now apply emits_raise|].
  eapply emits_bind; [apply get_devices_emits|]. intros devices _.
  eapply emits_bind; [now apply print_table_emits|]. intros _ _.
  eapply emits_bind; [apply get_user_selections_emits|]. intros [[|n sel]|] _.
  - exact IH.
  - eapply emits_bind with (Q := fun _ => True); [now apply emits_lift|].
    intros chosen _. eapply emits_bind; [apply manage_devices_emits|].
    intros _ _. exact IH.
  - now apply emits_ret.
Qed.

Lemma manage_devices_across_emulations_emits (emulations : list Emulation.t) :
  emits P (manage_devices_across_emulations emulations).
Proof.
  unfold manage_devices_across_emulations.
  eapply emits_bind; [now apply emits_input|]. intros line _.
  eapply emits_bind; [now apply emits_input|]. intros answer _.
  eapply emits_bind.
  - apply emits_for_each. intros e.
    eapply emits_bind; [apply get_devices_emits|]. intros devices _.
    eapply emits_bind; [now apply emits_print|]. intros _ _.
    apply toggle_devices_emits.
  - intros _ _. eapply emits_bind; [now apply emits_input|].
    intros; now apply emits_ret.
Qed.

Lemma manage_emulations_emits (fuel : nat) (emulations : list Emulation.t) :
  emits P (manage_emulations expiry_after show fuel emulations).
Proof.
  unfold manage_emulations. apply show_P. cbn [items].
  repeat (constructor; [cbn [function]; try apply toggle_emulations_emits|]);
    [|constructor].
  destruct emulations as [|e [|e' rest]]; cbn [function];
    first [apply select_devices_emits|apply manage_devices_across_emulations_emits].
Qed.

Hypothesis emulation_table_P :
  forall l,
    Sorted name_le l ->
    P (Table ("#" :: map fst emulation_headers) (table_rows emulation_headers l)).

Lemma get_emulations_sorted :
  emits_with P (Sorted name_le) (get_emulations (R := R) fromtimestamp).
Proof.
  unfold get_emulations. eapply emits_bind with (Q := fun _ => True).
  - eapply emits_bind; [now apply emits_call|]. intros r _. now apply emits_dispatch.
  - intros r _. apply emits_lift. intros l Hl.
    apply add_ending_times_timed in Hl.
    apply (timed_sorted fromtimestamp _ _ Hl), sort_by_name_sorted.
Qed.

Lemma select_emulations_emits (fuel : nat) :
  emits P (select_emulations expiry_after fromtimestamp show fuel).
Proof.
  induction fuel as [|fuel IH]; cbn [select_emulations]; [now apply emits_raise|].
  eapply emits_bind; [apply get_emulations_sorted|]. intros emulations Hsorted.
  eapply emits_bind; [now apply print_table_emits, emulation_table_P|]. intros _ _.
  eapply emits_bind; [apply get_user_selections_emits|]. intros [[|n sel]|] _.
  - exact IH.
  - eapply emits_bind with (Q := fun _ => True); [now apply emits_lift|].
    intros chosen _. eapply emits_bind; [apply manage_emulations_emits|].
    intros _ _. exact IH.
  - now apply emits_ret.
Qed.

End ProgramEmits.

Lemma plain_sorted_display (ev : event) : plain ev -> sorted_display ev.
Proof. now destruct ev. Qed.

Lemma first_item_emits {R} (P : event -> Prop) (menu : ConsoleMenu R) :
  Forall (fun item => emits P (function item)) (items menu) ->
  emits P (first_item menu).
Proof.
  unfold first_item. intros Hitems.
  destruct Hitems as [|item rest Hitem _]; [|exact Hitem].
  apply emits_ret. exact I.
Qed.

(** ** Claim about the order of the emulations *)

(** C9: the list [get_emulations] returns holds the emulations the service
    listed, sorted ascending by name (every name is below all the later
    ones); it does return one when the service answers 200 and the host
    converts the [end_at] of every listed emulation;
    every table of emulations the selection loop displays shows such a sorted
    list, whatever the menus do in between, as long as a menu adds nothing to
    the display but what its items and its own plain printing add. *)
Theorem C9_emulations_sorted
        (R : Type) (T : Tesuto R) (expiry_after : Z -> Z)
        (fromtimestamp : Z -> result Z)
        (show : ConsoleMenu R -> M R unit) :
  (forall menu,
      Forall (fun item => emits sorted_display (function item)) (items menu) ->
      emits sorted_display (show menu)) ->
  (forall w l w',
      get_emulations fromtimestamp w = (Ok l, w') ->
      StronglySorted name_le l /\
      Permutation (map Emulation.name l)
                  (map Emulation.name (data (fst (Emulation_list (remote w))))))
  /\ (forall w,
         status_code (fst (Emulation_list (remote w))) = 200 ->
         Forall (converts fromtimestamp) (data (fst (Emulation_list (remote w)))) ->
         exists l, fst (get_emulations fromtimestamp w) = Ok l)
  /\ (forall fuel,
         emits sorted_display (select_emulations expiry_after fromtimestamp show fuel)).
Proof.
  intros Hshow. split; [|split].
  - intros w l w'. unfold get_emulations, bind, call, _dispatch.
    destruct (Emulation_list (remote w)) as [answer r]. cbn [fst].
    destruct (status_code answer =? 401); [discriminate|].
    destruct (status_code answer =? 404); [discriminate|].
    unfold ret, lift. intros [= Hl _].
    apply add_ending_times_timed in Hl. split.
    + apply sorted_strongly, (timed_sorted fromtimestamp _ _ Hl), sort_by_name_sorted.
    + rewrite (timed_names fromtimestamp _ _ Hl). apply Permutation_map.
      symmetry. apply sort_by_name_perm.
  - intros w H200 Hconv. unfold get_emulations, bind, call, _dispatch.
    destruct (Emulation_list (remote w)) as [answer r]. cbn [fst] in *.
    rewrite H200. cbn [Z.eqb Pos.eqb]. unfold ret, lift. cbn [fst].
    apply add_ending_times_ok.
    apply (Permutation_Forall (sort_by_name_perm (data answer))). exact Hconv.
  - intros fuel. apply select_emulations_emits.
    + exact plain_sorted_display.
    + exact Hshow.
    + intros l. cbn. discriminate.
    + intros l Hl _. now exists l.
Qed.

Lemma C9_emulations_sorted_witness :
  (StronglySorted name_le [sample_emulation 2 "a"; sample_emulation 1 "b"] /\
   Permutation
     (map Emulation.name [sample_emulation 2 "a"; sample_emulation 1 "b"])
     (map Emulation.name [sample_emulation 1 "b"; sample_emulation 2 "a"]))
  /\ emits sorted_display
       (select_emulations sample_expiry sample_fromtimestamp first_item 3).
Proof.
  destruct (C9_emulations_sorted script scripted sample_expiry sample_fromtimestamp
              first_item (first_item_emits sorted_display)) as (Hfetch & _ & Hloop).
  split; [|apply Hloop].
  apply (Hfetch (listing_world [sample_emulation 1 "b"; sample_emulation 2 "a"] [])
                [sample_emulation 2 "a"; sample_emulation 1 "b"]
                (Build_world [] [ApiEmulationList]
                   {| answers := [];
                      listed_emulations := [sample_emulation 1 "b"; sample_emulation 2 "a"];
                      listed_devices := [] |})).
  reflexivity.
Defined.

(** The example of C9: the service lists b, then a; the loop displays a in
    row 1 and b in row 2. *)
Example fetched_b_a_displayed_a_b :
  trace (snd (select_emulations sample_expiry sample_fromtimestamp first_item 1
                (listing_world [sample_emulation 1 "b"; sample_emulation 2 "a"] [])))
  = [ApiEmulationList;
     Table ["#"; "Name"; "Region"; "Status"; "Ends (UTC)"]
           [[VInt 1; VStr "a"; VStr "us-east"; VStr "stopped"; VNone];
            [VInt 2; VStr "b"; VStr "us-east"; VStr "stopped"; VNone]];
     Print "Ctrl+D to exit | Enter to refresh";
     Prompt "Select emulation(s): ";
     Print nl].
Proof. reflexivity. Qed.

(** An [end_at] the host cannot convert: the exception of
    [datetime.fromtimestamp] leaves [get_emulations] and the loop, and no
    table is displayed. *)
Example unconvertible_end_at_raises :
  select_emulations sample_expiry sample_fromtimestamp first_item 1
    (listing_world [sample_emulation 1 "b"; ending_emulation 2 "a" 1000000000000] ["1"])
  = (Raise ValueError,
     Build_world ["1"] [ApiEmulationList]
       {| answers := [];
          listed_emulations :=
            [sample_emulation 1 "b"; ending_emulation 2 "a" 1000000000000];
          listed_devices := [] |}).
Proof. reflexivity. Qed.

(** * Further properties *)

(** ** The selection prompt *)

Section PromptFacts.
Import PyStr PyStrFacts IntFacts.

Lemma parse_segment_raises (segment : string) (e : exn) :
  parse_segment segment = Raise e -> e = InvalidChoice (ArgStr segment).
Proof.
  unfold parse_segment. destruct (contains "-" segment).
  - destruct (map int (split "-" segment)) as [|[a|] [|[b|] [|c t]]];
      congruence.
  - destruct (int segment); congruence.
Qed.

Lemma parse_segments_raises (segments : list string) :
  forall acc e,
    parse_segments segments acc = Raise e ->
    exists segment, In segment segments /\ e = InvalidChoice (ArgStr segment).
Proof.
  induction segments as [|seg rest IH]; intros acc e; cbn [parse_segments];
    [discriminate|].
  destruct (parse_segment seg) as [ns|e'] eqn:Hseg.
  - intros Hrest. destruct (IH _ _ Hrest) as (s & Hs & He).
    exists s. split; [now right|exact He].
  - intros [= <-]. exists seg. split; [now left|].
    now apply parse_segment_raises.
Qed.

Lemma validate_raises (choices : Z -> bool) (selections : list Z) (e : exn) :
  validate choices selections = Raise e ->
  exists n, In n selections /\ choices n = false /\ e = InvalidChoice (ArgInt n).
Proof.
  induction selections as [|n rest IH]; cbn [validate]; [discriminate|].
  destruct (choices n) eqn:Hn.
  - intros Hrest. destruct (IH Hrest) as (m & Hm & Hc & He).
    exists m. repeat split; [now right|exact Hc|exact He].
  - intros [= <-]. exists n. repeat split; [now left|exact Hn].
Qed.

Lemma read_selections_raises (choices : Z -> bool) (line : string) (e : exn) :
  read_selections choices line = Raise e -> exists arg, e = InvalidChoice arg.
Proof.
  unfold read_selections.
  destruct (parse_segments (split "," line) []) as [sel|e'] eqn:Hp.
  - destruct (validate choices sel) as [[]|e''] eqn:Hv; [discriminate|].
    intros [= <-]. destruct (validate_raises _ _ _ Hv) as (n & _ & _ & ->). eauto.
  - intros [= <-]. destruct (parse_segments_raises _ _ _ Hp) as (s & _ & ->). eauto.
Qed.

Lemma loop_never_raises (choices : Z -> bool) (prompt : string) (lines : list string) :
  forall tr, exists r lines' tr',
    get_user_selections_loop choices prompt lines tr = (Ok r, lines', tr')
    /\ exists consumed, lines = (consumed ++ lines')%list.
Proof.
  induction lines as [|line rest IH]; intros tr; cbn [get_user_selections_loop].
  - do 3 eexists. split; [reflexivity|]. now exists [].
  - destruct (String.eqb line EmptyString).
    + do 3 eexists. split; [reflexivity|]. now exists [line].
    + destruct (read_selections choices line) as [sel|e] eqn:Hr.
      * do 3 eexists. split; [reflexivity|]. now exists [line].
      * destruct (read_selections_raises _ _ _ Hr) as [arg ->].
        destruct (IH ((tr ++ [Prompt (prompt ++ ": ")])
                        ++ [Print ("Invalid choice: " ++ show_arg arg)])%list)
          as (r & lines' & tr' & Hloop & consumed & ->).
        exists r, lines', tr'. split; [exact Hloop|]. now exists (line :: consumed).
Qed.

Lemma refusals_cons (choices : Z -> bool) (prompt line : string)
      (lines : list string) :
  refusals choices prompt (line :: lines)
  = (refusals choices prompt [line] ++ refusals choices prompt lines)%list.
Proof. unfold refusals. cbn [flat_map]. now rewrite app_nil_r. Qed.

End PromptFacts.

(** X1: [get_user_selections] never raises, whatever is typed and whatever
    [choices] is: every [ValueError] becomes an [InvalidChoice], every
    [InvalidChoice] and the [EOFError] are caught.  It reads lines from the
    front of the input and leaves the remote service alone. *)
Theorem X1_get_user_selections_never_raises
        (R : Type) (choices : Z -> bool) (prompt : string) (w : world R) :
  exists r w',
    get_user_selections choices prompt w = (Ok r, w') /\
    remote w' = remote w /\
    exists consumed, stdin w = (consumed ++ stdin w')%list.
Proof.
  unfold get_user_selections, bind, print. cbn [emit stdin trace remote].
  destruct (loop_never_raises choices prompt (stdin w)
              (trace w ++ [Print "Ctrl+D to exit | Enter to refresh"])%list)
    as (r & lines' & tr' & -> & consumed & Hc).
  exists r, (Build_world lines' tr' (remote w)). repeat split. now exists consumed.
Qed.

(** X2: the prompt goes through the refused lines, showing the refusal of
    each, and answers with the first line that is not refused: the empty
    selection for a blank line, the parsed selection otherwise.  When the
    input ends first, it answers with [None]. *)
Theorem X2_prompt_answers_with_first_accepted_line
        (choices : Z -> bool) (prompt : string) (skipped : list string) :
  Forall (fun line => refusal choices line <> None) skipped ->
  (forall tr,
      get_user_selections_loop choices prompt skipped tr
      = (Ok None, [],
         (tr ++ refusals choices prompt skipped
             ++ [Prompt (prompt ++ ": "); Print nl])%list))
  /\ (forall line sel rest tr,
         (line = EmptyString /\ sel = []) \/
         (line <> EmptyString /\ read_selections choices line = Ok sel) ->
         get_user_selections_loop choices prompt (skipped ++ line :: rest) tr
         = (Ok (Some sel), rest,
            (tr ++ refusals choices prompt skipped ++ [Prompt (prompt ++ ": ")])%list)).
Proof.
  intros Hskipped.
  assert (Hstep : forall line rest tr,
             refusal choices line <> None ->
             get_user_selections_loop choices prompt (line :: rest) tr
             = get_user_selections_loop choices prompt rest
                 (tr ++ refusals choices prompt [line])%list).
  { intros line rest tr Hline. cbn [get_user_selections_loop refusals flat_map].
    unfold refusal in *. destruct (String.eqb line EmptyString); [congruence|].
    destruct (read_selections choices line) as [sel|[]]; try congruence.
    now rewrite app_nil_r, <- app_assoc. }
  split.
  - induction Hskipped as [|line skipped Hline _ IH]; intros tr.
    + cbn. now rewrite <- app_assoc.
    + rewrite (refusals_cons _ _ line skipped), Hstep, IH by exact Hline.
      now rewrite <- !app_assoc.
  - intros line sel rest. induction Hskipped as [|l skipped Hl _ IH]; intros tr Hline.
    + cbn [app refusals flat_map get_user_selections_loop].
      destruct Hline as [[-> ->]|[Hne Hread]]; [reflexivity|].
      destruct (String.eqb_spec line EmptyString); [contradiction|].
      now rewrite Hread.
    + cbn [app]. rewrite (refusals_cons _ _ l skipped), Hstep, IH by assumption.
      now rewrite <- !app_assoc.
Qed.

Lemma X2_prompt_answers_with_first_accepted_line_witness :
  get_user_selections_loop (in_range 1 4) "Select" ["x"; "9"; "2-3"; "1"] []
  = (Ok (Some [2; 3]), ["1"],
     ([] ++ refusals (in_range 1 4) "Select" ["x"; "9"] ++ [Prompt ("Select" ++ ": ")])%list).
Proof.
  apply (X2_prompt_answers_with_first_accepted_line (in_range 1 4) "Select" ["x"; "9"]).
  - repeat constructor; discriminate.
  - right. split; [discriminate|reflexivity].
Defined.

Section SelectionFacts.
Import PyStr PyStrFacts IntFacts.

Lemma digit_of_range (c : ascii) (d : Z) : digit_of c = Some d -> 0 <= d <= 9.
Proof.
  unfold digit_of. cbv zeta. generalize (code c). intros k.
  destruct (Z.leb_spec 48 k), (Z.leb_spec k 57); cbn [andb];
    intros [= <-]; lia.
Qed.

Lemma scan_digits_nonneg (s : string) :
  forall acc prev n rest,
    0 <= acc -> scan_digits s acc prev = Some (n, rest) -> 0 <= n.
Proof.
  induction s as [|c r IH]; intros acc prev n rest Hacc; cbn [scan_digits].
  - destruct prev; intros [= <- _]; assumption.
  - destruct (digit_of c) as [d|] eqn:Hd.
    + apply digit_of_range in Hd. apply IH. lia.
    + destruct (Ascii.eqb c "_").
      * destruct prev; try discriminate. now apply IH.
      * destruct prev; intros [= <- _]; assumption.
Qed.

Lemma has_char_lstrip (sp : ascii -> bool) (c : ascii) (s : string) :
  has_char c s = false -> has_char c (lstrip_by sp s) = false.
Proof.
  induction s as [|x r IH]; cbn [lstrip_by has_char]; [reflexivity|].
  intros Hno. destruct (sp x); [|exact Hno].
  apply IH. now apply orb_false_iff in Hno.
Qed.

(** The sign [int] reads: without a dash in front there is none. *)
Lemma int_without_dash (s : string) (n : Z) :
  has_char "-" s = false -> int s = Some n -> 0 <= n.
Proof.
  intros Hno. apply (has_char_lstrip is_c_space) in Hno. unfold int.
  destruct (lstrip_by is_c_space s) as [|c r]; [discriminate|].
  cbn [has_char] in Hno. apply orb_false_iff in Hno as [Hc _].
  assert (Hscan : forall t, match scan_digits t 0 PStart with
                            | Some (m, rest) =>
                                match lstrip_by is_c_space rest with
                                | EmptyString => Some (1 * m)
                                | String _ _ => None
                                end
                            | None => None
                            end = Some n -> 0 <= n).
  { intros t. destruct (scan_digits t 0 PStart) as [[m rest]|] eqn:Ht; [|discriminate].
    destruct (lstrip_by is_c_space rest); [|discriminate].
    intros [= <-]. apply scan_digits_nonneg in Ht; [now destruct m|lia]. }
  destruct c as [[] [] [] [] [] [] [] []]; try discriminate Hc; apply Hscan.
Qed.

Lemma range_nonneg (a b n : Z) : 0 <= a -> In n (range a b) -> 0 <= n.
Proof.
  unfold range. intros Ha Hin. apply in_map_iff in Hin as (i & <- & _). lia.
Qed.

Lemma parse_segment_nonneg (segment : string) (ns : list Z) :
  parse_segment segment = Ok ns -> Forall (fun n => 0 <= n) ns.
Proof.
  unfold parse_segment. rewrite contains_char.
  destruct (has_char "-" segment) eqn:Hd.
  - destruct (split "-" segment) as [|sa [|sb [|sc t]]] eqn:Hs; cbn [map];
      try discriminate.
    + now destruct (int sa).
    + apply split_two in Hs as (_ & Ha & _).
      destruct (int sa) as [a|] eqn:Hia; [|discriminate].
      destruct (int sb) as [b|]; [|discriminate].
      intros [= <-]. apply Forall_forall. intros n.
      apply range_nonneg. eapply int_without_dash; eassumption.
    + now destruct (int sa), (int sb).
  - destruct (int segment) as [n|] eqn:Hn; [|discriminate].
    intros [= <-]. constructor; [|constructor].
    eapply int_without_dash; eassumption.
Qed.

Lemma parse_segments_acc (segments : list string) :
  forall acc,
    parse_segments segments acc
    = match parse_segments segments [] with
      | Ok ns => Ok (acc ++ ns)%list
      | Raise e => Raise e
      end.
Proof.
  induction segments as [|seg rest IH]; intros acc; cbn [parse_segments].
  - now rewrite app_nil_r.
  - destruct (parse_segment seg) as [ns|e]; [|reflexivity].
    rewrite (IH (acc ++ ns)%list), (IH ([] ++ ns)%list).
    destruct (parse_segments rest []); [|reflexivity].
    cbn [app]. now rewrite app_assoc.
Qed.

Lemma parse_segments_join (l1 l2 : list string) :
  parse_segments (l1 ++ l2) []
  = match parse_segments l1 [] with
    | Ok a => match parse_segments l2 [] with
              | Ok b => Ok (a ++ b)%list
              | Raise e => Raise e
              end
    | Raise e => Raise e
    end.
Proof.
  induction l1 as [|seg rest IH]; cbn [app parse_segments].
  - now destruct (parse_segments l2 []).
  - destruct (parse_segment seg) as [ns|e]; [|reflexivity].
    rewrite (parse_segments_acc (rest ++ l2)), (parse_segments_acc rest), IH.
    destruct (parse_segments rest []); [|reflexivity].
    destruct (parse_segments l2 []); [|reflexivity].
    cbn [app]. now rewrite app_assoc.
Qed.

Lemma parse_segments_nonneg (segments : list string) (ns : list Z) :
  parse_segments segments [] = Ok ns -> Forall (fun n => 0 <= n) ns.
Proof.
  revert ns. induction segments as [|seg rest IH]; intros ns.
  - intros [= <-]. constructor.
  - change (seg :: rest) with ([seg] ++ rest)%list. rewrite parse_segments_join.
    cbn [parse_segments].
    destruct (parse_segment seg) as [a|] eqn:Ha; [|discriminate].
    destruct (parse_segments rest []) as [b|]; [|discriminate].
    intros [= <-]. apply Forall_app. split; [|now apply IH].
    exact (parse_segment_nonneg _ _ Ha).
Qed.



Lemma has_comma_uint (d : Decimal.uint) :
  has_char "," (NilEmpty.string_of_uint d) = false.
Proof.
  induction d; cbn [NilEmpty.string_of_uint has_char]; [reflexivity|..];
    now rewrite IHd.
Qed.

Lemma has_comma_of_int (n : Z) : has_char "," (of_int n) = false.
Proof.
  unfold of_int. destruct n as [|p|p]; [reflexivity|..];
    cbn [Z.to_int NilZero.string_of_int]; unfold NilZero.string_of_uint;
    destruct (Pos.to_uint p) eqn:Hp; try reflexivity;
    rewrite <- Hp; cbn [has_char]; apply has_comma_uint.
Qed.

End SelectionFacts.

(** X3: no negative integer is ever selected, whatever [choices] holds: a
    dash is always read as the dash of a range, so a selection that is
    returned holds non-negative integers only. *)
Theorem X3_selection_never_negative
        (R : Type) (choices : Z -> bool) (prompt : string) (w w' : world R)
        (sel : list Z) :
  get_user_selections choices prompt w = (Ok (Some sel), w') ->
  Forall (fun n => 0 <= n) sel.
Proof.
  unfold get_user_selections, bind, print. cbn [emit stdin trace remote].
  generalize (trace w ++ [Print "Ctrl+D to exit | Enter to refresh"])%list.
  generalize (stdin w). intros lines.
  induction lines as [|line rest IH]; intros tr; cbn [get_user_selections_loop];
    [discriminate|].
  destruct (String.eqb line EmptyString); [intros [= <- _]; constructor|].
  unfold read_selections at 1.
  destruct (parse_segments (PyStr.split "," line) []) as [l|e] eqn:Hp.
  - destruct (validate choices l) as [[]|e].
    + intros [= <- _]. now apply parse_segments_nonneg in Hp.
    + destruct e; try discriminate. apply IH.
  - destruct e; try discriminate. apply IH.
Qed.

Lemma X3_selection_never_negative_witness :
  Forall (fun n => 0 <= n) [0; 1; 2].
Proof.
  apply (X3_selection_never_negative unit (fun _ => true) "Select"
           (Build_world ["-3"; "0-2"] [] tt)
           (Build_world []
              [Print "Ctrl+D to exit | Enter to refresh"; Prompt "Select: ";
               Print "Invalid choice: -3"; Prompt "Select: "] tt)).
  reflexivity.
Defined.


(** X5: a number typed the way [str] prints it selects exactly itself when
    it is a choice, and is refused by name when it is none; a negative number
    is refused as a malformed segment even when it is a choice. *)
Theorem X5_single_number (choices : Z -> bool) (n : Z) :
  read_selections choices (PyStr.of_int n)
  = if n <? 0 then Raise (InvalidChoice (ArgStr (PyStr.of_int n)))
    else if choices n then Ok [n]
         else Raise (InvalidChoice (ArgInt n)).
Proof.
  unfold read_selections.
  rewrite PyStrFacts.split_no_sep by apply has_comma_of_int.
  cbn [parse_segments]. destruct (Z.ltb_spec n 0) as [Hneg|Hpos].
  - rewrite parse_segment_malformed; [reflexivity|].
    destruct n as [|p|p]; try lia.
    intros [[m [Hd _]]|(a & b & sa & sb & Hs & Ha & _ & Hia & _)].
    + discriminate Hd.
    + unfold PyStr.of_int in Hs. cbn [Z.to_int NilZero.string_of_int] in Hs.
      destruct sa as [|c sa]; [discriminate Hia|].
      cbn [append] in Hs. injection Hs as <- _.
      discriminate Ha.
  - rewrite (parse_segment_plain (PyStr.of_int n) n).
    + cbn [app validate]. now destruct (choices n).
    + split; [now apply IntFacts.has_dash_of_int|now apply IntFacts.int_of_int].
Qed.

(** ** Batches that succeed, and batches in general *)

Section BatchFacts.
Context {R : Type} `{Tesuto R} {A : Type}.
Variable request : A -> event.
Variable serve : A -> R -> response unit * R.
Variables success failure : A -> string.

Lemma batch_all_ok (targets : list A) :
  forall (w : world R) (r' : R),
    put_codes serve targets (remote w) = (repeat 200 (List.length targets), r') ->
    for_break targets (put_body request serve success failure) w
    = (Ok tt,
       Build_world (stdin w) (trace w ++ applied request success targets) r').
Proof.
  induction targets as [|x rest IH]; intros w r';
    cbn [put_codes for_break List.length repeat applied flat_map].
  - intros [= <-]. unfold ret. rewrite app_nil_r. now destruct w.
  - unfold bind. rewrite put_body_run.
    destruct (serve x (remote w)) as [answer r].
    destruct (put_codes serve rest r) as [codes r2] eqn:Hrest.
    intros [= Hx -> ->]. cbv zeta. rewrite Hx.
    change (200 =? 401) with false. change (200 =? 404) with false.
    change (200 =? 200) with true. cbv iota.
    rewrite (IH (emit [Print (success x)]
                   (Build_world (stdin w) (trace w ++ [request x]) r)) r' Hrest).
    cbn [emit stdin trace remote app]. fold (applied request success rest).
    now rewrite <- !app_assoc.
Qed.

Hypothesis request_is_call : forall x, is_api_call (request x) = true.

Lemma applied_calls (targets : list A) :
  api_calls (applied request success targets) = map request targets.
Proof.
  unfold api_calls, applied.
  induction targets as [|x rest IH]; cbn [flat_map app filter map is_api_call];
    [reflexivity|].
  now rewrite request_is_call, IH.
Qed.

(** Whatever the service answers, the calls of a batch are those of the
    first targets, in order, and the input is left alone. *)
Lemma batch_calls (targets : list A) :
  forall w : world R,
    let w' := snd (for_break targets (put_body request serve success failure) w) in
    stdin w' = stdin w /\
    exists k,
      (k <= List.length targets)%nat /\
      api_calls (trace w') = (api_calls (trace w) ++ map request (firstn k targets))%list.
Proof.
  induction targets as [|x rest IH]; intros w; cbn [for_break].
  - cbn. split; [reflexivity|]. exists O. split; [lia|]. now rewrite app_nil_r.
  - unfold bind. rewrite put_body_run.
    destruct (serve x (remote w)) as [answer r]. cbv zeta.
    set (w1 := Build_world (stdin w) (trace w ++ [request x]) r).
    assert (Hone : api_calls (trace w1)
                   = (api_calls (trace w) ++ map request (firstn 1 (x :: rest)))%list).
    { unfold w1, api_calls. cbn [trace firstn map]. rewrite filter_app.
      cbn [filter]. now rewrite request_is_call. }
    assert (Hstop : forall res : result unit,
               stdin (snd (res, w1)) = stdin w /\
               exists k, (k <= List.length (x :: rest))%nat /\
                 api_calls (trace (snd (res, w1)))
                 = (api_calls (trace w) ++ map request (firstn k (x :: rest)))%list).
    { intros res. split; [reflexivity|]. exists 1%nat. cbn [List.length snd].
      split; [lia|exact Hone]. }
    destruct (status_code answer =? 401); [apply Hstop|].
    destruct (status_code answer =? 404); [apply Hstop|].
    destruct (status_code answer =? 200).
    + destruct (IH (emit [Print (success x)] w1)) as (Hin & k & Hk & Hcalls).
      split; [exact Hin|]. exists (S k). cbn [List.length]. split; [lia|].
      rewrite Hcalls. cbn [emit trace firstn map].
      unfold api_calls in *. rewrite filter_app. cbn [filter is_api_call].
      rewrite app_nil_r, Hone. cbn [firstn map]. now rewrite <- app_assoc.
    + cbn [snd ret emit stdin trace]. split; [reflexivity|]. exists 1%nat.
      cbn [List.length]. split; [lia|].
      unfold api_calls in *. rewrite filter_app. cbn [filter is_api_call].
      now rewrite app_nil_r, Hone.
Qed.

End BatchFacts.

(** X6: when the service answers 200 to every apply call of a batch, each
    target gets exactly one apply call followed by its success notice, in
    the order of the list; then comes the closing prompt, and the dispatcher
    returns once it is answered.  An empty batch is the case of no target:
    nothing is called. *)
Theorem X6_batch_all_succeed :
  (forall (R : Type) (T : Tesuto R) (devices : list Device.t)
          (is_enabled prompt : bool) (w : world R),
      fst (put_codes (serve_device is_enabled) devices (remote w))
      = repeat 200 (List.length devices) ->
      let run := toggle_devices devices is_enabled prompt w in
      trace (snd run)
      = (trace w
         ++ applied (device_request is_enabled) (device_success is_enabled) devices
         ++ (if prompt then [Prompt "Press [enter] to continue..."] else []))%list
      /\ (prompt = false \/ stdin w <> [] -> fst run = Ok tt))
  /\
  (forall (R : Type) (T : Tesuto R) (expiry_after : Z -> Z)
          (emulations : list Emulation.t) (status : string) (timer : bool)
          (end_time : option Z) (w w1 : world R),
      let data := {| action := status; end_at := end_time |} in
      ask_end_time expiry_after status timer w = (Ok end_time, w1) ->
      fst (put_codes (serve_emulation data) emulations (remote w1))
      = repeat 200 (List.length emulations) ->
      let run := toggle_emulations expiry_after emulations status timer w in
      trace (snd run)
      = (trace w1
         ++ applied (emulation_request data) (emulation_success status end_time)
                    emulations
         ++ [Prompt "Press [enter] to continue..."])%list
      /\ (stdin w1 <> [] -> fst run = Ok tt)).
Proof.
  split.
  - intros R T devices is_enabled prompt w Hcodes run. unfold run.
    destruct (put_codes _ _ _) as [codes r'] eqn:Hput. cbn [fst] in Hcodes. subst codes.
    rewrite toggle_devices_loop. unfold bind at 1 3.
    rewrite (batch_all_ok _ _ _ _ devices w r' Hput).
    destruct prompt.
    + rewrite press_enter_trace. cbn [trace]. split; [now rewrite <- app_assoc|].
      intros [Hp|Hin]; [discriminate|]. now apply press_enter_returns.
    + cbn [ret fst snd trace]. now rewrite app_nil_r.
  - intros R T expiry_after emulations status timer end_time w w1 data Hask Hcodes run.
    unfold run. destruct (put_codes _ _ _) as [codes r'] eqn:Hput.
    cbn [fst] in Hcodes. subst codes.
    rewrite toggle_emulations_loop. unfold bind at 1 4. rewrite Hask. fold data.
    cbv zeta. unfold bind at 1 3.
    rewrite (batch_all_ok _ _ _ _ emulations w1 r' Hput).
    rewrite press_enter_trace. cbn [trace]. split; [now rewrite <- app_assoc|].
    intros Hin. now apply press_enter_returns.
Qed.

Lemma X6_batch_all_succeed_witness :
  trace (snd (toggle_devices [sample_device 1 "csr1"; sample_device 2 "csr2"]
                false true (sample_world [200; 200] ["go"])))
  = ([] ++ applied (device_request false) (device_success false)
                   [sample_device 1 "csr1"; sample_device 2 "csr2"]
        ++ [Prompt "Press [enter] to continue..."])%list
  /\ (true = false \/ ["go"] <> [] ->
      fst (toggle_devices [sample_device 1 "csr1"; sample_device 2 "csr2"]
             false true (sample_world [200; 200] ["go"])) = Ok tt).
Proof.
  destruct X6_batch_all_succeed as [Hdevices _].
  apply (Hdevices script scripted [sample_device 1 "csr1"; sample_device 2 "csr2"]
           false true (sample_world [200; 200] ["go"])).
  reflexivity.
Defined.

Section CallFacts.
Context {R : Type} `{Tesuto R}.
Variable expiry_after : Z -> Z.

Lemma api_calls_app (tr evs : list event) :
  api_calls (tr ++ evs) = (api_calls tr ++ api_calls evs)%list.
Proof. apply filter_app. Qed.

Lemma press_enter_calls (w : world R) :
  api_calls (trace (snd ((input "Press [enter] to continue..." ;; ret tt) w)))
  = api_calls (trace w).
Proof. rewrite press_enter_trace, api_calls_app. cbn. now rewrite app_nil_r. Qed.

Lemma ask_hours_calls (lines : list string) :
  forall tr, api_calls (snd (ask_hours expiry_after lines tr)) = api_calls tr.
Proof.
  induction lines as [|line rest IH]; intros tr; cbn [ask_hours].
  - cbn [snd]. rewrite api_calls_app. cbn. now rewrite app_nil_r.
  - destruct (PyStr.int line) as [hours|].
    + destruct (in_range 1 25 hours).
      * cbn [snd]. rewrite api_calls_app. cbn. now rewrite app_nil_r.
      * rewrite IH, !api_calls_app. cbn. now rewrite !app_nil_r.
    + cbn [snd]. rewrite api_calls_app. cbn. now rewrite app_nil_r.
Qed.

Lemma ask_end_time_calls (status : string) (timer : bool) (w : world R) :
  api_calls (trace (snd (ask_end_time expiry_after status timer w)))
  = api_calls (trace w)
  /\ forall end_time,
       fst (ask_end_time expiry_after status timer w) = Ok end_time ->
       (status <> "start" \/ timer = false) -> end_time = None.
Proof.
  unfold ask_end_time. destruct (String.eqb_spec status "start") as [->|Hne];
    cbn [andb].
  - destruct timer.
    + unfold bind, prompt_hours, ret.
      pose proof (ask_hours_calls (stdin w) (trace w)) as Hcalls.
      destruct (ask_hours expiry_after (stdin w) (trace w)) as [[[t|e] lines] tr];
        cbn [fst snd trace] in *; (split; [exact Hcalls|]).
      * intros end_time _ [Hs|Ht]; congruence.
      * discriminate.
    + cbn. split; [reflexivity|]. now intros end_time [= <-].
  - cbn. split; [reflexivity|]. now intros end_time [= <-].
Qed.

End CallFacts.

(** X7: whatever the service answers, a dispatcher calls it for the first
    targets of its list only, once each and in the order of the list: it
    never calls twice for a target, never skips one and never goes on after
    one it has not called.  [toggle_devices] without its closing prompt reads
    no input; [toggle_emulations] sends the same body with every call, and
    that body has no expiry unless a timer goes with [start]. *)
Theorem X7_calls_are_a_prefix_of_the_batch :
  (forall (R : Type) (T : Tesuto R) (devices : list Device.t)
          (is_enabled prompt : bool) (w : world R),
      let w' := snd (toggle_devices devices is_enabled prompt w) in
      (prompt = false -> stdin w' = stdin w)
      /\ exists k,
           (k <= List.length devices)%nat /\
           api_calls (trace w')
           = (api_calls (trace w)
              ++ map (device_request is_enabled) (firstn k devices))%list)
  /\
  (forall (R : Type) (T : Tesuto R) (expiry_after : Z -> Z)
          (emulations : list Emulation.t) (status : string) (timer : bool)
          (w : world R),
      let w' := snd (toggle_emulations expiry_after emulations status timer w) in
      exists k end_time,
        (k <= List.length emulations)%nat /\
        (status <> "start" \/ timer = false -> end_time = None) /\
        api_calls (trace w')
        = (api_calls (trace w)
           ++ map (emulation_request {| action := status; end_at := end_time |})
                  (firstn k emulations))%list).
Proof.
  split.
  - intros R T devices is_enabled prompt w. rewrite toggle_devices_loop.
    destruct (batch_calls (device_request is_enabled) (serve_device is_enabled)
                (device_success is_enabled) device_failure
                (fun _ => eq_refl) devices w) as (Hin & k & Hk & Hcalls).
    unfold bind at 1.
    destruct (for_break devices _ w) as [[[]|e] w1]; cbn [snd] in *.
    + destruct prompt.
      * split; [discriminate|]. exists k. split; [exact Hk|].
        now rewrite press_enter_calls.
      * cbn [ret snd]. split; [intros _; exact Hin|]. now exists k.
    + split; [intros _; exact Hin|]. now exists k.
  - intros R T expiry_after emulations status timer w. rewrite toggle_emulations_loop.
    destruct (ask_end_time_calls expiry_after status timer w) as [Hask Hnone].
    unfold bind at 1.
    destruct (ask_end_time expiry_after status timer w) as [[end_time|e] w1];
      cbn [fst snd] in *.
    + cbv zeta.
      destruct (batch_calls
                  (emulation_request {| action := status; end_at := end_time |})
                  (serve_emulation {| action := status; end_at := end_time |})
                  (emulation_success status end_time) (emulation_failure status)
                  (fun _ => eq_refl) emulations w1) as (_ & k & Hk & Hcalls).
      exists k, end_time. split; [exact Hk|]. split; [now apply Hnone|].
      unfold bind at 1.
      destruct (for_break emulations _ w1) as [[[]|e] w2]; cbn [snd] in *.
      * now rewrite press_enter_calls, Hcalls, Hask.
      * now rewrite Hcalls, Hask.
    + exists O, None. split; [lia|]. split; [reflexivity|].
      cbn [firstn map]. now rewrite app_nil_r.
Qed.

Lemma X7_calls_are_a_prefix_of_the_batch_witness :
  let devices := [sample_device 1 "csr1"; sample_device 2 "csr2"; sample_device 3 "vmx1"] in
  let w := sample_world [200; 500] ["go"] in
  let w' := snd (toggle_devices devices true false w) in
  (false = false -> stdin w' = stdin w)
  /\ exists k,
       (k <= List.length devices)%nat /\
       api_calls (trace w')
       = (api_calls (trace w) ++ map (device_request true) (firstn k devices))%list.
Proof.
  intros devices w.
  destruct X7_calls_are_a_prefix_of_the_batch as [Hdevices _].
  apply (Hdevices script scripted devices true false w).
Defined.

Section HoursFacts.
Variable expiry_after : Z -> Z.



End HoursFacts.



(** ** The numbers of a table and the numbers of a selection *)

Section TableFacts.
Context {A : Type}.

Lemma nth_error_numbered (data : list A) :
  forall (start i : nat) (x : A),
    nth_error data i = Some x ->
    nth_error (combine (seq start (List.length data)) data) i
    = Some ((start + i)%nat, x).
Proof.
  induction data as [|y rest IH]; intros start [|i] x; cbn; try discriminate.
  - intros [= <-]. now rewrite Nat.add_0_r.
  - intros Hx. rewrite (IH (S start) i x Hx). f_equal. f_equal. lia.
Qed.

Lemma table_rows_length (headers : list (string * (A -> value))) (data : list A) :
  List.length (table_rows headers data) = List.length data.
Proof.
  unfold table_rows. rewrite length_map, length_combine, length_seq. lia.
Qed.

End TableFacts.

(** X9: [print_table] shows one row for every item, and the row it
    numbers [n] shows the item [list[n - 1]] that the selection loops pick
    for the number [n]: what the operator selects by number is what the
    table shows under that number. *)
Theorem X9_row_number_is_selection_number
        (A : Type) (headers : list (string * (A -> value))) (data : list A) (n : Z) :
  1 <= n <= Z.of_nat (List.length data) ->
  List.length (table_rows headers data) = List.length data /\
  exists x,
    getitem data (n - 1) = Ok x /\
    nth_error (table_rows headers data) (Z.to_nat (n - 1))
    = Some (VInt n :: map (fun h => snd h x) headers).
Proof.
  intros Hn. split; [apply table_rows_length|].
  destruct (nth_error data (Z.to_nat (n - 1))) as [x|] eqn:Hx.
  - exists x. split.
    + unfold getitem.
      replace (n - 1 <? 0) with false by (symmetry; apply Z.ltb_ge; lia).
      replace ((0 <=? n - 1) && (n - 1 <? Z.of_nat (List.length data))) with true
        by (symmetry; apply andb_true_iff; split;
            [apply Z.leb_le|apply Z.ltb_lt]; lia).
      now rewrite Hx.
    + unfold table_rows. rewrite nth_error_map.
      rewrite (nth_error_numbered data 1 _ x Hx). cbn [option_map].
      do 3 f_equal. lia.
  - apply nth_error_None in Hx. lia.
Qed.

Lemma X9_row_number_is_selection_number_witness :
  List.length (table_rows emulation_headers
                 [sample_emulation 7 "a"; sample_emulation 8 "b"])
  = List.length [sample_emulation 7 "a"; sample_emulation 8 "b"] /\
  exists x,
    getitem [sample_emulation 7 "a"; sample_emulation 8 "b"] (2 - 1) = Ok x /\
    nth_error (table_rows emulation_headers
                 [sample_emulation 7 "a"; sample_emulation 8 "b"])
              (Z.to_nat (2 - 1))
    = Some (VInt 2 :: map (fun h => snd h x) emulation_headers).
Proof.
  apply (X9_row_number_is_selection_number Emulation.t emulation_headers
           [sample_emulation 7 "a"; sample_emulation 8 "b"] 2).
  cbn. lia.
Defined.

(** ** What sorting keeps *)

Section StableSort.

Lemma compare_refl (s : string) : String.compare s s = Eq.
Proof.
  induction s as [|c r IH]; cbn [String.compare]; [reflexivity|].
  now rewrite ascii_compare_refl.
Qed.

Lemma ltb_names_differ (s t : string) : String.ltb s t = true -> s <> t.
Proof. unfold String.ltb. intros Hlt ->. now rewrite compare_refl in Hlt. Qed.

Lemma insert_by_name_filter (n : string) (x : Emulation.t) (l : list Emulation.t) :
  filter (has_name n) (insert_by_name x l) = filter (has_name n) (x :: l).
Proof.
  induction l as [|y r IH]; cbn [insert_by_name]; [reflexivity|].
  destruct (String.ltb (Emulation.name y) (Emulation.name x)) eqn:Hlt;
    [|reflexivity].
  apply ltb_names_differ in Hlt.
  cbn [filter] in *. rewrite IH. unfold has_name.
  destruct (String.eqb_spec (Emulation.name y) n) as [Hy|_]; [|reflexivity].
  destruct (String.eqb_spec (Emulation.name x) n) as [Hx|_]; [congruence|reflexivity].
Qed.

Lemma sort_by_name_filter (n : string) (l : list Emulation.t) :
  filter (has_name n) (sort_by_name l) = filter (has_name n) l.
Proof.
  induction l as [|x r IH]; cbn [sort_by_name]; [reflexivity|].
  rewrite insert_by_name_filter. cbn [filter]. now rewrite IH.
Qed.

Lemma timed_filter (fromtimestamp : Z -> result Z) (n : string)
      (l l' : list Emulation.t) :
  Forall2 (timed fromtimestamp) l l' ->
  Forall2 (timed fromtimestamp) (filter (has_name n) l) (filter (has_name n) l').
Proof.
  induction 1 as [|e e' l l' He _ IH]; cbn [filter]; [constructor|].
  replace (has_name n e') with (has_name n e)
    by (unfold has_name; now rewrite (timed_name fromtimestamp e e' He)).
  destruct (has_name n e); [now constructor|exact IH].
Qed.

End StableSort.

(** X15: [get_emulations] loses and adds nothing: it returns the listed
    emulations, each with its [ending_time] set, in another order.  The sort
    is stable: the emulations of one name keep the order in which the service
    listed them. *)
Theorem X15_sort_is_stable
        (R : Type) (T : Tesuto R) (fromtimestamp : Z -> result Z)
        (w w' : world R) (l : list Emulation.t) :
  get_emulations fromtimestamp w = (Ok l, w') ->
  let listed := data (fst (Emulation_list (remote w))) in
  (exists sorted,
      Permutation sorted listed /\ Forall2 (timed fromtimestamp) sorted l) /\
  forall n,
    Forall2 (timed fromtimestamp) (filter (has_name n) listed) (filter (has_name n) l).
Proof.
  unfold get_emulations, bind, call, _dispatch.
  destruct (Emulation_list (remote w)) as [answer r]. cbn [fst].
  destruct (status_code answer =? 401); [discriminate|].
  destruct (status_code answer =? 404); [discriminate|].
  unfold ret, lift. intros [= Hl _]. apply add_ending_times_timed in Hl. split.
  - exists (sort_by_name (data answer)). split; [|exact Hl].
    symmetry. apply sort_by_name_perm.
  - intros n. rewrite <- (sort_by_name_filter n (data answer)).
    now apply timed_filter.
Qed.

Lemma X15_sort_is_stable_witness :
  let listed := [sample_emulation 1 "lab"; sample_emulation 2 "dev"; sample_emulation 3 "lab"] in
  let sorted := [sample_emulation 2 "dev"; sample_emulation 1 "lab"; sample_emulation 3 "lab"] in
  (exists l, Permutation l listed /\ Forall2 (timed sample_fromtimestamp) l sorted) /\
  forall n,
    Forall2 (timed sample_fromtimestamp)
            (filter (has_name n) listed) (filter (has_name n) sorted).
Proof.
  intros listed sorted.
  apply (X15_sort_is_stable script scripted sample_fromtimestamp
           (listing_world listed [])
           (Build_world [] [ApiEmulationList]
              {| answers := []; listed_emulations := listed; listed_devices := [] |})
           sorted).
  reflexivity.
Defined.

(** ** More on the substring matcher *)

(** X16: with one fragment the devices to toggle are the fetched devices
    whose name contains the stripped fragment, in the order of the fetch and
    once each.  With any fragments, a device is toggled exactly when it was
    fetched and its name, as it is stored, contains one of the stripped
    fragments. *)
Theorem X16_matcher_filters_in_order :
  (forall (fragment : string) (devices : list Device.t),
      devices_to_toggle [fragment] devices
      = filter (fun d => PyStr.contains (PyStr.strip fragment) (Device.name d)) devices)
  /\ (forall (user_devices : list string) (devices : list Device.t) (d : Device.t),
         In d (devices_to_toggle user_devices devices) <->
         In d devices /\
         exists fragment,
           In fragment user_devices /\
           PyStr.contains (PyStr.strip fragment) (Device.name d) = true).
Proof.
  split.
  - intros fragment devices. rewrite devices_to_toggle_flat_map.
    induction devices as [|d rest IH]; cbn [flat_map filter]; [reflexivity|].
    rewrite IH. unfold matching_fragments. cbn [filter].
    now destruct (PyStr.contains (PyStr.strip fragment) (Device.name d)).
  - apply selected_iff.
Qed.

(** ** What the program raises, and that its loops end *)

Section Safe.
Context {R : Type}.
Variable n : nat.

Lemma safe_ret {A} (Q : A -> Prop) (a : A) : Q a -> safe_with n Q (ret (R := R) a).
Proof.
  intros Ha w _. cbn. repeat split; [lia|discriminate|now intros ? [= <-]].
Qed.

Lemma safe_raise {A} (Q : A -> Prop) (e : exn) :
  expected e -> safe_with n Q (raise (R := R) e).
Proof.
  intros He w _. cbn. repeat split; [lia|now intros ? [= <-]|discriminate].
Qed.

Lemma safe_bind {A B} (Q : A -> Prop) (Q' : B -> Prop) (m : M R A) (k : A -> M R B) :
  safe_with n Q m -> (forall a, Q a -> safe_with n Q' (k a)) ->
  safe_with n Q' (bind m k).
Proof.
  intros Hm Hk w Hw. unfold bind.
  destruct (Hm w Hw) as (Hlen & Herr & Hok).
  destruct (m w) as [[a|e] w1]; cbn [fst snd] in *.
  - destruct (Hk a (Hok a eq_refl) w1 ltac:(lia)) as (Hlen' & Herr' & Hok').
    repeat split; [lia|exact Herr'|exact Hok'].
  - repeat split; [exact Hlen| |discriminate].
    intros e' [= <-]. now apply Herr.
Qed.

Lemma safe_print (s : string) : safe n (print (R := R) s).
Proof. intros w _. cbn. repeat split; [lia|discriminate]. Qed.

Lemma safe_input (s : string) : safe n (input (R := R) s).
Proof.
  intros w _. unfold input. destruct (stdin w) as [|line rest] eqn:Hs; cbn.
  - rewrite Hs. repeat split; [cbn; lia|].
    intros e [= <-]. unfold expected. tauto.
  - repeat split; [lia|discriminate].
Qed.

Lemma safe_call {A} (request : event) (serve : R -> response A * R) :
  safe n (call request serve).
Proof.
  intros w _. unfold call. destruct (serve (remote w)). cbn.
  repeat split; [lia|discriminate].
Qed.

Lemma safe_dispatch {A} (r : response A) : safe n (_dispatch (R := R) r).
Proof.
  unfold _dispatch.
  destruct (status_code r =? 401); [apply safe_raise; unfold expected; tauto|].
  destruct (status_code r =? 404); [apply safe_raise; unfold expected; tauto|].
  now apply safe_ret.
Qed.

Lemma safe_for_break {A} (l : list A) (body : A -> M R bool) :
  (forall x, safe n (body x)) -> safe n (for_break l body).
Proof.
  intros Hbody. induction l as [|x rest IH]; cbn [for_break].
  - now apply safe_ret.
  - eapply safe_bind; [apply Hbody|]. intros [] _; [now apply safe_ret|exact IH].
Qed.

Lemma safe_for_each {A} (l : list A) (body : A -> M R unit) :
  (forall x, safe n (body x)) -> safe n (for_each l body).
Proof.
  intros Hbody. induction l as [|x rest IH]; cbn [for_each].
  - now apply safe_ret.
  - eapply safe_bind; [apply Hbody|]. intros _ _. exact IH.
Qed.

End Safe.

Section ProgramSafe.
Context {R : Type} `{Tesuto R}.
Variable expiry_after : Z -> Z.
Variable fromtimestamp : Z -> result Z.
Variable show : ConsoleMenu R -> M R unit.
Hypothesis fromtimestamp_documented : documented fromtimestamp.
Hypothesis show_safe :
  forall n menu,
    Forall (fun item => safe n (function item)) (items menu) -> safe n (show menu).

Lemma ask_hours_safe (lines : list string) :
  forall tr,
    let '(r, lines', _) := ask_hours expiry_after lines tr in
    (List.length lines' <= List.length lines)%nat /\
    forall e, r = Raise e -> expected e.
Proof.
  induction lines as [|line rest IH]; intros tr; cbn [ask_hours].
  - split; [lia|]. intros e [= <-]. unfold expected. tauto.
  - destruct (PyStr.int line) as [hours|].
    + destruct (in_range 1 25 hours).
      * split; [cbn; lia|discriminate].
      * specialize (IH ((tr ++ [Prompt "Hours to run (1-24): "])
                          ++ [Print ("Invalid choice: " ++ PyStr.of_int hours)])%list).
        destruct (ask_hours expiry_after rest _) as [[r lines'] tr'].
        destruct IH as [Hlen Herr]. split; [cbn; lia|exact Herr].
    + split; [cbn; lia|]. intros e [= <-]. unfold expected. tauto.
Qed.

Lemma prompt_hours_safe (n : nat) : safe n (prompt_hours expiry_after (R := R)).
Proof.
  intros w _. unfold prompt_hours.
  pose proof (ask_hours_safe (stdin w) (trace w)) as Hask.
  destruct (ask_hours expiry_after (stdin w) (trace w)) as [[r lines'] tr'].
  destruct Hask as [Hlen Herr]. cbn. repeat split; [exact Hlen|exact Herr].
Qed.

Lemma put_body_safe {A} (n : nat) (request : A -> event)
      (serve : A -> R -> response unit * R) (success failure : A -> string) (x : A) :
  safe n (put_body request serve success failure x).
Proof.
  unfold put_body. eapply safe_bind with (Q := fun _ => True).
  - eapply safe_bind; [apply safe_call|]. intros r _. apply safe_dispatch.
  - intros r _. destruct (status_code r =? 200);
      (eapply safe_bind; [apply safe_print|]); intros _ _; now apply safe_ret.
Qed.

Lemma toggle_devices_safe (n : nat) (devices : list Device.t)
      (is_enabled prompt : bool) :
  safe n (toggle_devices devices is_enabled prompt).
Proof.
  rewrite toggle_devices_loop. eapply safe_bind.
  - apply safe_for_break. intros d. apply put_body_safe.
  - intros _ _. destruct prompt; [|now apply safe_ret].
    eapply safe_bind; [apply safe_input|]. intros; now apply safe_ret.
Qed.

Lemma toggle_emulations_safe (n : nat) (emulations : list Emulation.t)
      (status : string) (timer : bool) :
  safe n (toggle_emulations expiry_after emulations status timer).
Proof.
  rewrite toggle_emulations_loop. eapply safe_bind with (Q := fun _ => True).
  - unfold ask_end_time. destruct ((status =? "start")%string && timer).
    + eapply safe_bind; [apply prompt_hours_safe|]. intros; now apply safe_ret.
    + now apply safe_ret.
  - intros end_time _. cbv zeta. eapply safe_bind.
    + apply safe_for_break. intros e. apply put_body_safe.
    + intros _ _. eapply safe_bind; [apply safe_input|].
      intros; now apply safe_ret.
Qed.

Lemma get_devices_safe (n : nat) (emulation_id : Z) :
  safe n (get_devices emulation_id).
Proof.
  unfold get_devices. eapply safe_bind with (Q := fun _ => True).
  - eapply safe_bind; [apply safe_call|]. intros r _. apply safe_dispatch.
  - intros; now apply safe_ret.
Qed.

Lemma safe_lift {A} (n : nat) (r : result A) :
  (forall e, r = Raise e -> expected e) -> safe n (lift (R := R) r).
Proof. intros Hr w _. cbn. repeat split; [lia|exact Hr]. Qed.

Lemma conversion_error_expected (e : exn) : conversion_error e -> expected e.
Proof. unfold conversion_error, expected. tauto. Qed.

Lemma get_emulations_safe (n : nat) : safe n (get_emulations (R := R) fromtimestamp).
Proof.
  unfold get_emulations. eapply safe_bind with (Q := fun _ => True).
  - eapply safe_bind; [apply safe_call|]. intros r _. apply safe_dispatch.
  - intros r _. apply safe_lift. intros e He.
    destruct (add_ending_times_raise fromtimestamp _ e He) as [t Ht].
    apply conversion_error_expected. now apply (fromtimestamp_documented t).
Qed.

Lemma print_table_safe {A} (n : nat) (headers : list (string * (A -> value)))
      (l : list A) :
  safe n (print_table (R := R) headers l).
Proof. intros w _. cbn. repeat split; [lia|discriminate]. Qed.

(** A turn of the prompt either ends with [None] or has read a line. *)
Lemma loop_progress (choices : Z -> bool) (prompt : string) (lines : list string) :
  forall tr r lines' tr',
    get_user_selections_loop choices prompt lines tr = (r, lines', tr') ->
    (r = Ok None /\ lines' = []) \/
    (exists sel, r = Ok (Some sel) /\
                 (List.length lines' < List.length lines)%nat /\
                 Forall (fun k => choices k = true) sel).
Proof.
  induction lines as [|line rest IH]; intros tr r lines' tr';
    cbn [get_user_selections_loop].
  - intros [= <- <- _]. now left.
  - destruct (String.eqb line EmptyString).
    + intros [= <- <- _]. right. exists []. repeat split; [cbn; lia|constructor].
    + destruct (read_selections choices line) as [sel|e] eqn:Hr.
      * intros [= <- <- _]. right. exists sel. repeat split; [cbn; lia|].
        eapply read_selections_ok, Hr.
      * destruct (read_selections_raises _ _ _ Hr) as [arg ->].
        intros Hloop. destruct (IH _ _ _ _ Hloop) as [Hnone|(sel & -> & Hlen & Hsel)].
        -- now left.
        -- right. exists sel. repeat split; [cbn; lia|exact Hsel].
Qed.

Lemma get_user_selections_progress (choices : Z -> bool) (prompt : string)
      (w : world R) :
  let '(r, w') := get_user_selections choices prompt w in
  (r = Ok None /\ stdin w' = []) \/
  (exists sel, r = Ok (Some sel) /\
               (List.length (stdin w') < List.length (stdin w))%nat /\
               Forall (fun k => choices k = true) sel).
Proof.
  unfold get_user_selections, bind, print. cbn [emit stdin trace remote].
  destruct (get_user_selections_loop choices prompt (stdin w) _)
    as [[r lines'] tr'] eqn:Hloop.
  exact (loop_progress _ _ _ _ _ _ _ Hloop).
Qed.

Lemma get_user_selections_safe (n : nat) (choices : Z -> bool) (prompt : string) :
  safe n (get_user_selections (R := R) choices prompt).
Proof.
  intros w _. pose proof (get_user_selections_progress choices prompt w) as Hp.
  destruct (get_user_selections choices prompt w) as [r w'].
  cbn [fst snd]. destruct Hp as [[-> Hnil]|(sel & -> & Hlen & _)].
  - rewrite Hnil. repeat split; [cbn; lia|discriminate].
  - repeat split; [lia|discriminate].
Qed.

Lemma manage_devices_safe (n : nat) (devices : list Device.t) :
  safe n (manage_devices show devices).
Proof.
  unfold manage_devices. apply show_safe. cbn [items].
  constructor; [apply toggle_devices_safe|].
  constructor; [apply toggle_devices_safe|constructor].
Qed.

Lemma manage_devices_across_emulations_safe (n : nat)
      (emulations : list Emulation.t) :
  safe n (manage_devices_across_emulations emulations).
Proof.
  unfold manage_devices_across_emulations.
  eapply safe_bind; [apply safe_input|]. intros line _.
  eapply safe_bind; [apply safe_input|]. intros answer _.
  eapply safe_bind.
  - apply safe_for_each. intros e.
    eapply safe_bind; [apply get_devices_safe|]. intros devices _.
    eapply safe_bind; [apply safe_print|]. intros _ _.
    apply toggle_devices_safe.
  - intros _ _. eapply safe_bind; [apply safe_input|].
    intros; now apply safe_ret.
Qed.

(** One turn of a selection loop, given what comes after it. *)
Lemma selection_turn_safe {A} (fuel : nat) (fetch : M R (list A))
      (headers : list (string * (A -> value))) (prompt : string)
      (manage : list A -> M R unit) (again : M R unit) :
  (forall n, safe n fetch) ->
  (forall l, safe fuel (manage l)) ->
  safe fuel again ->
  safe (S fuel)
    (items <- fetch ;;
     print_table headers items ;;
     selections <- get_user_selections
                     (in_range 1 (Z.of_nat (List.length items) + 1)) prompt ;;
     match selections with
     | None => ret tt
     | Some [] => again
     | Some selections =>
         chosen <- lift (pick items selections) ;;
         manage chosen ;;
         again
     end).
Proof.
  intros Hfetch Hmanage Hagain w Hw.
  match goal with
  | |- context [snd (?prog w)] => remember (prog w) as res eqn:Hres
  end.
  unfold bind in Hres.
  destruct (Hfetch (S fuel) w Hw) as (Hlen1 & Herr1 & _).
  destruct (fetch w) as [[l|e] w1]; cbn [fst snd] in *;
    [|subst res; cbn [fst snd];
      split; [exact Hlen1|split; [intros ? [= <-]; now apply Herr1|easy]]].
  unfold print_table in Hres. cbv beta iota in Hres.
  pose proof (get_user_selections_progress
                (in_range 1 (Z.of_nat (List.length l) + 1)) prompt
                (emit [Table ("#" :: map fst headers) (table_rows headers l)] w1))
    as Hp.
  destruct (get_user_selections _ prompt _) as [r w2].
  cbn [emit stdin] in Hp.
  destruct Hp as [[-> Hnil]|(sel & -> & Hlen2 & Hsel)].
  - subst res. cbn. rewrite Hnil. split; [cbn; lia|split; [discriminate|easy]].
  - assert (Hw2 : (List.length (stdin w2) < fuel)%nat) by lia.
    destruct sel as [|k sel].
    + destruct (Hagain w2 Hw2) as (Hlen3 & Herr3 & _).
      subst res. split; [lia|split; [exact Herr3|easy]].
    + destruct (pick_in_bounds l (k :: sel) Hsel) as (chosen & Hpick & _).
      unfold lift in Hres. rewrite Hpick in Hres.
      destruct (Hmanage chosen w2 Hw2) as (Hlen3 & Herr3 & _).
      destruct (manage chosen w2) as [[[]|e] w3]; cbn [fst snd] in *.
      * destruct (Hagain w3 ltac:(lia)) as (Hlen4 & Herr4 & _).
        subst res. split; [lia|split; [exact Herr4|easy]].
      * subst res. cbn [fst snd].
        split; [lia|split; [intros ? [= <-]; now apply Herr3|easy]].
Qed.

Lemma select_devices_safe (fuel : nat) (emulation_id : Z) :
  safe fuel (select_devices show fuel emulation_id).
Proof.
  induction fuel as [|fuel IH]; [intros w Hw; lia|].
  cbn [select_devices]. apply selection_turn_safe.
  - intros n. apply get_devices_safe.
  - intros l. apply manage_devices_safe.
  - exact IH.
Qed.

Lemma manage_emulations_safe (fuel : nat) (emulations : list Emulation.t) :
  safe fuel (manage_emulations expiry_after show fuel emulations).
Proof.
  unfold manage_emulations. apply show_safe. cbn [items].
  do 4 (constructor; [apply toggle_emulations_safe|]).
  constructor; [|constructor].
  destruct emulations as [|e [|e' rest]]; cbn [function];
    first [apply select_devices_safe|apply manage_devices_across_emulations_safe].
Qed.

Lemma select_emulations_safe (fuel : nat) :
  safe fuel (select_emulations expiry_after fromtimestamp show fuel).
Proof.
  induction fuel as [|fuel IH]; [intros w Hw; lia|].
  cbn [select_emulations]. apply selection_turn_safe.
  - intros n. apply get_emulations_safe.
  - intros l. apply manage_emulations_safe.
  - exact IH.
Qed.

End ProgramSafe.

Lemma sample_fromtimestamp_documented : documented sample_fromtimestamp.
Proof.
  intros t e. unfold sample_fromtimestamp.
  destruct ((0 <=? t) && (t <? 253402300800)); [discriminate|].
  intros [= <-]. now left.
Qed.

Lemma first_item_safe {R} (n : nat) (menu : ConsoleMenu R) :
  Forall (fun item => safe n (function item)) (items menu) ->
  safe n (first_item menu).
Proof.
  unfold first_item. intros Hitems.
  destruct Hitems as [|item rest Hitem _]; [|exact Hitem].
  now apply safe_ret.
Qed.

(** X12: a turn of a selection loop reads a line or ends the loop, and
    nothing in the program puts input back.  So, as long as a menu reads
    input forward only and raises nothing but what its items may raise, a
    loop given a bound above the number of input lines never reaches it: the
    loops end when the input does.  With a host whose
    [datetime.fromtimestamp] raises nothing but [ValueError], [OSError] and
    [OverflowError], the run raises nothing but those three, the two
    exceptions of [_dispatch] and [EOFError]; in particular no
    [list[n - 1]] of the loops ever raises [IndexError]. *)
Theorem X12_selection_loop_ends
        (R : Type) (T : Tesuto R) (expiry_after : Z -> Z)
        (fromtimestamp : Z -> result Z)
        (show : ConsoleMenu R -> M R unit) (fuel : nat) (w : world R) :
  documented fromtimestamp ->
  (forall n menu,
      Forall (fun item => safe n (function item)) (items menu) -> safe n (show menu)) ->
  (List.length (stdin w) < fuel)%nat ->
  let run := select_emulations expiry_after fromtimestamp show fuel w in
  (List.length (stdin (snd run)) <= List.length (stdin w))%nat /\
  (forall e, fst run = Raise e -> expected e) /\
  fst run <> Raise OutOfFuel /\
  fst run <> Raise IndexError.
Proof.
  intros Hdoc Hshow Hw run.
  destruct (select_emulations_safe expiry_after fromtimestamp show Hdoc Hshow fuel w Hw)
    as (Hlen & Herr & _).
  fold run in Hlen, Herr. repeat split; [exact Hlen|exact Herr| |];
    intros Hraise; apply Herr in Hraise;
    destruct Hraise as [He|[He|[He|[He|[He|He]]]]]; discriminate He.
Qed.

Lemma X12_selection_loop_ends_witness :
  let w := listing_world [sample_emulation 1 "b"; sample_emulation 2 "a"]
                         ["7"; "1"; "go"; EmptyString] in
  let run := select_emulations sample_expiry sample_fromtimestamp first_item 5 w in
  (List.length (stdin (snd run)) <= List.length (stdin w))%nat /\
  (forall e, fst run = Raise e -> expected e) /\
  fst run <> Raise OutOfFuel /\
  fst run <> Raise IndexError.
Proof.
  intros w.
  apply (X12_selection_loop_ends script scripted sample_expiry sample_fromtimestamp
           first_item 5 w).
  - exact sample_fromtimestamp_documented.
  - intros n menu. apply first_item_safe.
  - cbn. lia.
Defined.



(** ** Blank lines refresh the list *)

Section Refresh.
Context {R : Type} `{Tesuto R}.
Variable expiry_after : Z -> Z.
Variable fromtimestamp : Z -> result Z.
Variable show : ConsoleMenu R -> M R unit.
Hypothesis lists : forall r, status_code (fst (Emulation_list r)) = 200.
Hypothesis converted :
  forall r, Forall (converts fromtimestamp) (data (fst (Emulation_list r))).

Lemma get_emulations_ok (w : world R) :
  exists l,
    get_emulations fromtimestamp w
    = (Ok l, Build_world (stdin w) (trace w ++ [ApiEmulationList])
               (snd (Emulation_list (remote w)))).
Proof.
  unfold get_emulations, bind, call, _dispatch.
  pose proof (lists (remote w)) as Hl. pose proof (converted (remote w)) as Hc.
  destruct (Emulation_list (remote w)) as [answer r]. cbn [fst snd] in *.
  rewrite Hl. cbn [Z.eqb Pos.eqb]. unfold ret, lift.
  destruct (add_ending_times_ok fromtimestamp (sort_by_name (data answer)))
    as [l Hok].
  - apply (Permutation_Forall (sort_by_name_perm (data answer))). exact Hc.
  - rewrite Hok. now exists l.
Qed.

Lemma refresh (k : nat) :
  forall fuel (w : world R),
    stdin w = repeat EmptyString k ->
    (k < fuel)%nat ->
    exists w',
      select_emulations expiry_after fromtimestamp show fuel w = (Ok tt, w') /\
      stdin w' = [] /\
      api_calls (trace w')
      = (api_calls (trace w) ++ repeat ApiEmulationList (S k))%list.
Proof.
  induction k as [|k IH]; intros [|fuel] w Hstdin Hfuel; try lia;
    cbn [select_emulations]; unfold bind at 1;
    destruct (get_emulations_ok w) as [l ->];
    unfold bind at 1, print_table at 1; unfold bind at 1;
    unfold get_user_selections, bind, print;
    cbn [emit stdin trace remote]; rewrite Hstdin;
    cbn [repeat get_user_selections_loop String.eqb].
  - eexists. split; [reflexivity|]. cbn [stdin trace]. split; [reflexivity|].
    rewrite !api_calls_app. cbn. now rewrite !app_nil_r.
  - destruct (IH fuel
                (Build_world (repeat EmptyString k)
                   ((((trace w ++ [ApiEmulationList])
                        ++ [Table ("#" :: map fst emulation_headers)
                                  (table_rows emulation_headers l)])
                       ++ [Print "Ctrl+D to exit | Enter to refresh"])
                      ++ [Prompt ("Select emulation(s)" ++ ": ")])
                   (snd (Emulation_list (remote w))))
                eq_refl ltac:(lia)) as (w' & Hrun & Hin & Hcalls).
    exists w'. split; [exact Hrun|]. split; [exact Hin|].
    rewrite Hcalls. cbn [trace]. rewrite !api_calls_app. cbn.
    now rewrite !app_nil_r, <- app_assoc.
Qed.

End Refresh.

(** X13: a blank line makes the selection loop fetch and display the list
    again, and the end of the input ends the loop.  With a service that
    answers every listing with 200 and lists only emulations whose [end_at]
    the host converts, and an operator who types [k] blank lines, the loop
    fetches the emulations [k + 1] times, calls the service for nothing else,
    opens no menu and returns. *)
Theorem X13_blank_lines_refresh
        (R : Type) (T : Tesuto R) (expiry_after : Z -> Z)
        (fromtimestamp : Z -> result Z)
        (show : ConsoleMenu R -> M R unit) (k fuel : nat) (w : world R) :
  (forall r, status_code (fst (Emulation_list r)) = 200) ->
  (forall r, Forall (converts fromtimestamp) (data (fst (Emulation_list r)))) ->
  stdin w = repeat EmptyString k ->
  (k < fuel)%nat ->
  let run := select_emulations expiry_after fromtimestamp show fuel w in
  fst run = Ok tt /\
  stdin (snd run) = [] /\
  api_calls (trace (snd run))
  = (api_calls (trace w) ++ repeat ApiEmulationList (S k))%list.
Proof.
  intros Hlists Hconv Hstdin Hfuel run.
  destruct (refresh expiry_after fromtimestamp show Hlists Hconv k fuel w Hstdin Hfuel)
    as (w' & Hrun & Hin & Hcalls).
  unfold run. rewrite Hrun. now repeat split.
Qed.

Lemma X13_blank_lines_refresh_witness :
  let w := Build_world [EmptyString; EmptyString] [] tt in
  let run := select_emulations (H := listing_answers [ending_emulation 1 "lab" 1700000000])
               sample_expiry sample_fromtimestamp first_item 3 w in
  fst run = Ok tt /\
  stdin (snd run) = [] /\
  api_calls (trace (snd run)) = (api_calls (trace w) ++ repeat ApiEmulationList 3)%list.
Proof.
  intros w.
  apply (X13_blank_lines_refresh unit
           (listing_answers [ending_emulation 1 "lab" 1700000000])
           sample_expiry sample_fromtimestamp first_item 2 3 w);
    [reflexivity| |reflexivity|lia].
  intros r. repeat constructor. eexists. reflexivity.
Defined.

(** ** Toggling devices across emulations *)

Section Across.
Context {R : Type} `{Tesuto R}.
Variable flag : bool.

Lemma only_print (s : string) : emits (only_device_calls flag) (print (R := R) s).
Proof. intros w. exists [Print s]. repeat split. now repeat constructor. Qed.

Lemma only_input (s : string) : emits (only_device_calls flag) (input (R := R) s).
Proof.
  intros w. exists [Prompt s]. unfold input.
  destruct (stdin w); repeat split; now repeat constructor.
Qed.

Lemma only_call {A} (request : event) (serve : R -> response A * R) :
  only_device_calls flag request -> emits (only_device_calls flag) (call request serve).
Proof.
  intros Hreq w. exists [request]. unfold call.
  destruct (serve (remote w)). repeat split. now repeat constructor.
Qed.

Lemma only_toggle_devices (devices : list Device.t) :
  emits (only_device_calls flag) (toggle_devices devices flag false).
Proof.
  rewrite toggle_devices_loop. eapply emits_bind.
  - apply emits_for_break. intros d. unfold put_body.
    eapply emits_bind with (Q := fun _ => True).
    + eapply emits_bind; [now apply only_call|]. intros r _. apply emits_dispatch.
    + intros r _. destruct (status_code r =? 200);
        (eapply emits_bind; [apply only_print|]); intros _ _; now apply emits_ret.
  - intros _ _. now apply emits_ret.
Qed.

Lemma only_across (user_devices : list string) (emulations : list Emulation.t) :
  emits (only_device_calls flag)
    (for_each emulations (fun emulation =>
       devices <- get_devices (Emulation.id emulation) ;;
       print (nl ++ "Updating Devices for Emulation: " ++ Emulation.name emulation) ;;
       toggle_devices (devices_to_toggle user_devices devices) flag false) ;;
     input (nl ++ "Press [Enter] to continue..." ++ nl) ;;
     ret tt).
Proof.
  eapply emits_bind.
  - apply emits_for_each. intros e.
    eapply emits_bind with (Q := fun _ => True).
    + unfold get_devices. eapply emits_bind with (Q := fun _ => True).
      * eapply emits_bind; [now apply only_call|]. intros r _. apply emits_dispatch.
      * intros; now apply emits_ret.
    + intros devices _. eapply emits_bind; [apply only_print|]. intros _ _.
      apply only_toggle_devices.
  - intros _ _. eapply emits_bind; [apply only_input|]. intros; now apply emits_ret.
Qed.

End Across.

(** X10: across emulations the devices are disabled exactly when the
    answer to "Enable or Disable [e/d]" is d or D; any other answer, a blank
    one or disable spelled out, enables them.  Every update of the run
    carries that one state, and the run fetches and updates devices only: it
    calls for no emulation and prints no table. *)
Theorem X10_one_state_for_all_devices
        (R : Type) (T : Tesuto R) (emulations : list Emulation.t)
        (line answer : string) (rest : list string) (w : world R) :
  stdin w = line :: answer :: rest ->
  exists evs,
    trace (snd (manage_devices_across_emulations emulations w))
    = (trace w ++ evs)%list /\
    Forall (only_device_calls (negb (PyStr.lower answer =? "d")%string)) evs.
Proof.
  intros Hstdin. unfold manage_devices_across_emulations.
  unfold bind at 1, input at 1. rewrite Hstdin.
  unfold bind at 1, input at 1. cbn [stdin trace remote].
  set (flag := negb (PyStr.lower answer =? "d")%string).
  replace (if (PyStr.lower answer =? "d")%string then false else true) with flag
    by (unfold flag; now destruct (PyStr.lower answer =? "d")%string).
  match goal with
  | |- context [snd (_ ?w2)] =>
      destruct (only_across flag (user_devices_of line) emulations w2)
        as (evs & Htrace & Hevs & _)
  end.
  eexists. split.
  - rewrite Htrace. cbn [trace]. rewrite <- !app_assoc. reflexivity.
  - cbn [app]. now repeat constructor.
Qed.

Lemma X10_one_state_for_all_devices_witness :
  exists evs,
    trace (snd (manage_devices_across_emulations
                  [sample_emulation 1 "lab-a"; sample_emulation 2 "lab-b"]
                  (Build_world ["csr"; "disable"; "go"] []
                     {| answers := []; listed_emulations := [];
                        listed_devices := [sample_device 1 "csr1"] |})))
    = ([] ++ evs)%list /\
    Forall (only_device_calls (negb (PyStr.lower "disable" =? "d")%string)) evs.
Proof.
  apply (X10_one_state_for_all_devices script scripted
           [sample_emulation 1 "lab-a"; sample_emulation 2 "lab-b"]
           "csr" "disable" ["go"]).
  reflexivity.
Defined.

Section NoRefusal.
Context {R : Type} `{Tesuto R}.
Hypothesis lists :
  forall emulation_id r,
    status_code (fst (EmulationDevice_list emulation_id r)) <> 401 /\
    status_code (fst (EmulationDevice_list emulation_id r)) <> 404.
Hypothesis puts :
  forall id emulation_id is_enabled r,
    status_code (fst (EmulationDevice_put id emulation_id is_enabled r)) <> 401 /\
    status_code (fst (EmulationDevice_put id emulation_id is_enabled r)) <> 404.

Lemma fetched_app (tr evs : list event) :
  fetched (tr ++ evs) = (fetched tr ++ fetched evs)%list.
Proof. apply flat_map_app. Qed.

(** A batch of devices never raises and fetches nothing. *)
Lemma batch_returns (is_enabled : bool) (devices : list Device.t) :
  forall w : world R,
    exists w',
      toggle_devices devices is_enabled false w = (Ok tt, w') /\
      stdin w' = stdin w /\
      fetched (trace w') = fetched (trace w).
Proof.
  rewrite toggle_devices_loop.
  enough (Hloop : forall w : world R,
             exists w',
               for_break devices
                 (put_body (device_request is_enabled) (serve_device is_enabled)
                           (device_success is_enabled) device_failure) w
               = (Ok tt, w') /\
               stdin w' = stdin w /\ fetched (trace w') = fetched (trace w)).
  { intros w. destruct (Hloop w) as (w' & Hrun & Hin & Hf).
    exists w'. unfold bind. rewrite Hrun. now repeat split. }
  induction devices as [|d rest IH]; intros w; cbn [for_break].
  - exists w. now repeat split.
  - unfold bind. rewrite put_body_run. unfold serve_device at 1.
    pose proof (puts (Device.id d) (Device.emulation_id d) is_enabled (remote w))
      as [H401 H404].
    destruct (EmulationDevice_put _ _ _ (remote w)) as [answer r].
    cbn [fst] in *. cbv zeta.
    destruct (Z.eqb_spec (status_code answer) 401); [contradiction|].
    destruct (Z.eqb_spec (status_code answer) 404); [contradiction|].
    destruct (status_code answer =? 200).
    + destruct (IH (emit [Print (device_success is_enabled d)]
                      (Build_world (stdin w)
                         (trace w ++ [device_request is_enabled d]) r)))
        as (w' & Hrun & Hin & Hf).
      exists w'. rewrite Hrun. repeat split; [exact Hin|].
      rewrite Hf. cbn [emit trace]. rewrite !fetched_app. cbn.
      now rewrite !app_nil_r.
    + eexists. split; [reflexivity|]. cbn [emit stdin trace].
      split; [reflexivity|]. rewrite !fetched_app. cbn. now rewrite !app_nil_r.
Qed.

Lemma for_each_fetches {A} (body : A -> M R unit) (f : A -> Z) :
  (forall x (w : world R),
      exists w',
        body x w = (Ok tt, w') /\
        stdin w' = stdin w /\
        fetched (trace w') = (fetched (trace w) ++ [f x])%list) ->
  forall l (w : world R),
    exists w',
      for_each l body w = (Ok tt, w') /\
      stdin w' = stdin w /\
      fetched (trace w') = (fetched (trace w) ++ map f l)%list.
Proof.
  intros Hbody. induction l as [|x rest IH]; intros w; cbn [for_each map].
  - exists w. repeat split. now rewrite app_nil_r.
  - unfold bind. destruct (Hbody x w) as (w1 & -> & Hin & Hf).
    destruct (IH w1) as (w' & -> & Hin' & Hf').
    exists w'. repeat split; [congruence|].
    now rewrite Hf', Hf, <- app_assoc.
Qed.

Lemma across_fetches_all (user_devices : list string) (desired_state : bool)
      (emulations : list Emulation.t) :
  forall w : world R,
    exists w',
      for_each emulations (fun emulation =>
        devices <- get_devices (Emulation.id emulation) ;;
        print (nl ++ "Updating Devices for Emulation: "
                  ++ Emulation.name emulation) ;;
        toggle_devices (devices_to_toggle user_devices devices) desired_state false) w
      = (Ok tt, w') /\
      stdin w' = stdin w /\
      fetched (trace w') = (fetched (trace w) ++ map Emulation.id emulations)%list.
Proof.
  apply for_each_fetches. intros e w.
  unfold bind at 1, get_devices. unfold bind at 1 2, call, _dispatch.
  pose proof (lists (Emulation.id e) (remote w)) as [H401 H404].
  destruct (EmulationDevice_list (Emulation.id e) (remote w)) as [answer r].
  cbn [fst] in *.
  destruct (Z.eqb_spec (status_code answer) 401); [contradiction|].
  destruct (Z.eqb_spec (status_code answer) 404); [contradiction|].
  cbn [ret]. unfold bind at 1, print at 1.
  match goal with
  | |- context [toggle_devices ?ds ?b false ?w1] =>
      destruct (batch_returns b ds w1) as (w2 & Hrun & Hin & Hf)
  end.
  exists w2. split; [exact Hrun|]. split; [exact Hin|].
  rewrite Hf. cbn [emit trace]. rewrite !fetched_app. cbn.
  now rewrite !app_nil_r.
Qed.

End NoRefusal.

(** X11: across emulations a device whose update fails ends the batch of
    its own emulation only.  As long as the service answers neither 401 nor
    404, the devices of every selected emulation are fetched, in the order of
    the selection, whatever the other answers are, and the run returns once
    its closing prompt is answered. *)
Theorem X11_every_emulation_is_fetched
        (R : Type) (T : Tesuto R) (emulations : list Emulation.t)
        (line answer closing : string) (rest : list string) (w : world R) :
  (forall emulation_id r,
      status_code (fst (EmulationDevice_list emulation_id r)) <> 401 /\
      status_code (fst (EmulationDevice_list emulation_id r)) <> 404) ->
  (forall id emulation_id is_enabled r,
      status_code (fst (EmulationDevice_put id emulation_id is_enabled r)) <> 401 /\
      status_code (fst (EmulationDevice_put id emulation_id is_enabled r)) <> 404) ->
  stdin w = line :: answer :: closing :: rest ->
  exists w',
    manage_devices_across_emulations emulations w = (Ok tt, w') /\
    stdin w' = rest /\
    fetched (trace w') = (fetched (trace w) ++ map Emulation.id emulations)%list.
Proof.
  intros Hlists Hputs Hstdin. unfold manage_devices_across_emulations.
  unfold bind at 1, input at 1. rewrite Hstdin.
  unfold bind at 1, input at 1. cbn [stdin trace remote].
  unfold bind at 1.
  match goal with
  | |- context [for_each emulations ?body ?w2] =>
      destruct (across_fetches_all Hlists Hputs (user_devices_of line)
                  (if (PyStr.lower answer =? "d")%string then false else true)
                  emulations w2) as (w3 & Hrun & Hin & Hf)
  end.
  rewrite Hrun. cbn [stdin trace] in Hin, Hf.
  unfold bind, input, ret. rewrite Hin.
  eexists. split; [reflexivity|]. cbn [stdin trace]. split; [reflexivity|].
  rewrite !fetched_app, Hf, !fetched_app. cbn. now rewrite !app_nil_r.
Qed.

Lemma X11_every_emulation_is_fetched_witness :
  exists w',
    manage_devices_across_emulations (H := fixed_answers 500 [sample_device 1 "csr1"])
      [sample_emulation 1 "lab-a"; sample_emulation 2 "lab-b"]
      (Build_world ["csr"; "e"; "go"] [] tt)
    = (Ok tt, w') /\
    stdin w' = [] /\
    fetched (trace w')
    = (fetched [] ++ map Emulation.id
                       [sample_emulation 1 "lab-a"; sample_emulation 2 "lab-b"])%list.
Proof.
  apply (X11_every_emulation_is_fetched unit (fixed_answers 500 [sample_device 1 "csr1"])
           [sample_emulation 1 "lab-a"; sample_emulation 2 "lab-b"]
           "csr" "e" "go" [] (Build_world ["csr"; "e"; "go"] [] tt)).
  - intros; cbn; lia.
  - intros; cbn; lia.
  - reflexivity.
Defined.

(** ** From a selection to the menu *)

Lemma get_emulations_returns {R} `{Tesuto R} (fromtimestamp : Z -> result Z)
      (w : world R) (l : list Emulation.t) :
  fst (get_emulations fromtimestamp w) = Ok l ->
  get_emulations fromtimestamp w
  = (Ok l, Build_world (stdin w) (trace w ++ [ApiEmulationList])
             (snd (Emulation_list (remote w)))).
Proof.
  unfold get_emulations, bind, call, _dispatch.
  destruct (Emulation_list (remote w)) as [answer r]. cbn [fst snd].
  destruct (status_code answer =? 401); [discriminate|].
  destruct (status_code answer =? 404); [discriminate|].
  unfold ret, lift. cbn [fst]. now intros ->.
Qed.

(** X17: when the fetch returns a list, a line that is accepted and selects
    something opens the menu of the emulations with exactly the emulations
    [list[n - 1]] of the selected numbers [n], in the order they were typed
    and as often as they were typed, where the list is the one just fetched
    and displayed; after the menu the loop starts over. *)
Theorem X17_selection_opens_the_menu
        (R : Type) (T : Tesuto R) (expiry_after : Z -> Z)
        (fromtimestamp : Z -> result Z)
        (show : ConsoleMenu R -> M R unit) (fuel : nat) (w : world R)
        (shown : list Emulation.t)
        (line : string) (rest : list string) (sel : list Z) :
  fst (get_emulations fromtimestamp w) = Ok shown ->
  stdin w = line :: rest ->
  read_selections (in_range 1 (Z.of_nat (List.length shown) + 1)) line = Ok sel ->
  sel <> [] ->
  exists chosen w1,
    Forall2 (fun n x => nth_error shown (Z.to_nat (n - 1)) = Some x) sel chosen /\
    stdin w1 = rest /\
    trace w1
    = (trace w ++ [ApiEmulationList;
                   Table ("#" :: map fst emulation_headers)
                         (table_rows emulation_headers shown);
                   Print "Ctrl+D to exit | Enter to refresh";
                   Prompt "Select emulation(s): "])%list /\
    select_emulations expiry_after fromtimestamp show (S fuel) w
    = (manage_emulations expiry_after show fuel chosen ;;
       select_emulations expiry_after fromtimestamp show fuel) w1.
Proof.
  intros Hfetch Hstdin Hread Hsel.
  assert (Hin : Forall (fun n => in_range 1 (Z.of_nat (List.length shown) + 1) n = true)
                       sel) by (eapply read_selections_ok, Hread).
  destruct (pick_in_bounds shown sel Hin) as (chosen & Hpick & Hchosen).
  assert (Hline : line <> EmptyString).
  { intros ->. discriminate Hread. }
  exists chosen,
    (Build_world rest
       (trace w ++ [ApiEmulationList;
                    Table ("#" :: map fst emulation_headers)
                          (table_rows emulation_headers shown);
                    Print "Ctrl+D to exit | Enter to refresh";
                    Prompt "Select emulation(s): "])
       (snd (Emulation_list (remote w)))).
  split; [exact Hchosen|]. split; [reflexivity|]. split; [reflexivity|].
  cbn [select_emulations]. unfold bind at 1.
  rewrite (get_emulations_returns fromtimestamp w shown Hfetch).
  unfold bind at 1, print_table at 1. unfold bind at 1.
  unfold get_user_selections, bind at 1, print at 1.
  cbn [emit stdin trace remote]. rewrite Hstdin. cbn [get_user_selections_loop].
  destruct (String.eqb_spec line EmptyString) as [|_]; [contradiction|].
  rewrite Hread.
  destruct sel as [|k sel]; [contradiction|].
  unfold bind at 1, lift. rewrite Hpick.
  now rewrite <- !app_assoc.
Qed.

Lemma X17_selection_opens_the_menu_witness :
  let w := listing_world [sample_emulation 1 "b"; ending_emulation 2 "a" 1700000000]
                         ["2,1,2"; "go"] in
  let shown := [timed_emulation 2 "a" 1700000000; sample_emulation 1 "b"] in
  exists chosen w1,
    Forall2 (fun n x => nth_error shown (Z.to_nat (n - 1)) = Some x) [2; 1; 2] chosen /\
    stdin w1 = ["go"] /\
    trace w1
    = (trace w ++ [ApiEmulationList;
                   Table ("#" :: map fst emulation_headers)
                         (table_rows emulation_headers shown);
                   Print "Ctrl+D to exit | Enter to refresh";
                   Prompt "Select emulation(s): "])%list /\
    select_emulations sample_expiry sample_fromtimestamp first_item 3 w
    = (manage_emulations sample_expiry first_item 2 chosen ;;
       select_emulations sample_expiry sample_fromtimestamp first_item 2) w1.
Proof.
  intros w shown.
  apply (X17_selection_opens_the_menu script scripted sample_expiry sample_fromtimestamp
           first_item 2 w shown "2,1,2" ["go"] [2; 1; 2]).
  - reflexivity.
  - reflexivity.
  - reflexivity.
  - discriminate.
Defined.
